(** * CeloWallet: the store provider, the wallet breakdown and the asset API

    A shallow embedding of
      - [src/services/Store/StoreProvider.tsx] (membership state, polling
        effects, account cache, [addAccount], fiat totals),
      - the [WalletBreakdown] component (the [balances] list),
      - [src/services/ApiService/CeloWalletApi/CeloWalletApi.ts] ([getAssets]),
    followed by the properties proved about them.

    Conventions.
      - [undefined] is [None]; a value of type [T | undefined] is [option T].
      - A promise is represented by what it settles to ([Settled]).
      - React state lives in a [Store]; a closure created during a render
        reads the values of that render, which the functions below take as
        explicit arguments named as in the source, while state setters act
        on the live [Store].
      - Calls into other contexts (AccountContext, SettingsContext,
        AddressBookContext), whose code is not part of these sources, are
        recorded in a call log ([Call]).
      - JavaScript numbers that hold fiat amounts are finite doubles and are
        represented by the rational they denote; adding them is IEEE 754
        double addition ([number_add]), which rounds and can overflow;
        [BigNumber] timestamps and wei balances are integers ([Z]).
      - Strings are held as their UTF-8 bytes; JavaScript compares strings
        by UTF-16 code units ([string_lt]). *)

From Stdlib Require Import ZArith QArith Qround Qabs Lia Lqa Sorting.Sorted
  Sorting.Permutation.
From stdpp Require Import base decidable option list strings gmap.

Local Open Scope string_scope.
Local Open Scope Z_scope.

(* ===================================================================== *)
(** * Part I: the embedding                                              *)
(* ===================================================================== *)

(** ** JavaScript runtime notions *)

Module JS.

(** An exception value: the constructor name and the message. *)
Record Exn := mkExn { exn_name : string; exn_message : string }.

Definition Error (message : string) : Exn := mkExn "Error" message.
Definition TypeError (message : string) : Exn := mkExn "TypeError" message.

(** What a promise settles to. *)
Inductive Settled (A : Type) : Type :=
| Fulfilled (value : A)
| Rejected (reason : Exn).
Arguments Fulfilled {A} value.
Arguments Rejected {A} reason.

(** [promise.then(f)] for a handler that may throw. *)
Definition then_ {A B} (p : Settled A) (f : A → Settled B) : Settled B :=
  match p with
  | Fulfilled v => f v
  | Rejected e => Rejected e
  end.

(** [Promise.all([p, q])]. *)
Definition Promise_all {A B} (p : Settled A) (q : Settled B) : Settled (A * B) :=
  match p, q with
  | Fulfilled a, Fulfilled b => Fulfilled (a, b)
  | Rejected e, _ => Rejected e
  | _, Rejected e => Rejected e
  end.

(** [Math.round(ms / 1000)] for an integral number of milliseconds:
    rounding to the nearest integer, halves upwards. *)
Definition Math_round_div1000 (ms : Z) : Z := (ms + 500) / 1000.

(** Truthiness of a number that may be [undefined]: [undefined] and [0]
    are falsy. *)
Definition truthy_number (n : option Z) : bool :=
  match n with
  | Some v => negb (v =? 0)
  | None => false
  end.

(** Truthiness of a string: the empty string is falsy. *)
Definition truthy_string (s : string) : bool :=
  negb (bool_decide (s = "")).

(** [Array.prototype.sort(compareFn)]: a stable sort; [a] stays before [b]
    unless [compareFn(a, b) > 0].  For a consistent comparator every stable
    sort returns the same array, here computed by insertion. *)
Fixpoint sort_insert {A} (compareFn : A → A → Q) (a : A) (l : list A) : list A :=
  match l with
  | [] => [a]
  | b :: l' =>
      if Qle_bool (compareFn a b) 0 then a :: b :: l'
      else b :: sort_insert compareFn a l'
  end.

Fixpoint Array_sort {A} (compareFn : A → A → Q) (l : list A) : list A :=
  match l with
  | [] => []
  | a :: l' => sort_insert compareFn a (Array_sort compareFn l')
  end.

(** A JavaScript number: a finite double, given by the rational it
    denotes, an infinity or [NaN].  (The two zeros are not told apart.) *)
Inductive number : Type :=
| Finite (q : Q)
| PosInfinity
| NegInfinity
| NaN.

(** [2 ** e] for an integer [e]. *)
Definition pow2 (e : Z) : Q :=
  if 0 <=? e then inject_Z (2 ^ e) else (/ inject_Z (2 ^ (- e)))%Q.

(** The binary exponent of a positive rational: [pow2 e <= q < pow2 (e + 1)]. *)
Definition ilog2 (q : Q) : Z :=
  let e0 := Z.log2 (Qnum q) - Z.log2 (Zpos (Qden q)) in
  if Qle_bool (pow2 e0) q then e0 else e0 - 1.

(** Rounding to the nearest integer, halves to the even one. *)
Definition round_half_even (x : Q) : Z :=
  let f := Qfloor x in
  match Qcompare (x - inject_Z f) (1 # 2) with
  | Lt => f
  | Gt => f + 1
  | Eq => if Z.even f then f else f + 1
  end.

(** The double nearest to a real result (IEEE 754 binary64, round to
    nearest, ties to even): 53 significant bits, exponents from -1022,
    below that a fixed spacing of [2 ** -1074], and an infinity once the
    rounded value reaches [2 ** 1024]. *)
Definition to_double (q : Q) : number :=
  match Qcompare q 0 with
  | Eq => Finite 0
  | c =>
      let a := Qabs q in
      let e := Z.max (ilog2 a) (-1022) in
      let ulp := pow2 (e - 52) in
      let r := (inject_Z (round_half_even (a / ulp)) * ulp)%Q in
      if Qle_bool (pow2 1024) r
      then match c with Gt => PosInfinity | _ => NegInfinity end
      else Finite (Qred (match c with Gt => r | _ => - r end))
  end.

(** [a + b] on numbers. *)
Definition number_add (a b : number) : number :=
  match a, b with
  | NaN, _ | _, NaN => NaN
  | PosInfinity, NegInfinity | NegInfinity, PosInfinity => NaN
  | PosInfinity, _ | _, PosInfinity => PosInfinity
  | NegInfinity, _ | _, NegInfinity => NegInfinity
  | Finite x, Finite y => to_double (x + y)
  end.

(** The UTF-16 code units of a code point. *)
Definition utf16 (cp : N) : list N :=
  if (cp <? 65536)%N then [cp]
  else [(55296 + (cp - 65536) / 1024)%N; (56320 + (cp - 65536) mod 1024)%N].

(** The UTF-16 code units of a string given by its UTF-8 bytes.  (A byte
    that does not start a complete sequence stands for itself; this does
    not arise for the bytes of a JavaScript string.) *)
Fixpoint code_units_of_bytes (bs : list N) : list N :=
  match bs with
  | [] => []
  | b0 :: rest =>
      if (b0 <? 192)%N then b0 :: code_units_of_bytes rest
      else if (b0 <? 224)%N then
        match rest with
        | b1 :: rest1 =>
            (utf16 (b0 mod 32 * 64 + b1 mod 64)%N ++ code_units_of_bytes rest1)%list
        | _ => b0 :: code_units_of_bytes rest
        end
      else if (b0 <? 240)%N then
        match rest with
        | b1 :: b2 :: rest2 =>
            (utf16 (b0 mod 16 * 4096 + b1 mod 64 * 64 + b2 mod 64)%N
             ++ code_units_of_bytes rest2)%list
        | _ => b0 :: code_units_of_bytes rest
        end
      else
        match rest with
        | b1 :: b2 :: b3 :: rest3 =>
            (utf16 (b0 mod 8 * 262144 + b1 mod 64 * 4096 + b2 mod 64 * 64
                    + b3 mod 64)%N
             ++ code_units_of_bytes rest3)%list
        | _ => b0 :: code_units_of_bytes rest
        end
  end.

Definition code_units (s : string) : list N :=
  code_units_of_bytes
    (map Stdlib.Strings.Ascii.N_of_ascii
       (Stdlib.Strings.String.list_ascii_of_string s)).

(** Lexicographic comparison of code-unit sequences. *)
Fixpoint units_compare (u v : list N) : comparison :=
  match u, v with
  | [], [] => Eq
  | [], _ :: _ => Lt
  | _ :: _, [] => Gt
  | x :: u', y :: v' =>
      match (x ?= y)%N with
      | Eq => units_compare u' v'
      | c => c
      end
  end.

(** [a < b] on strings. *)
Definition string_lt (a b : string) : bool :=
  match units_compare (code_units a) (code_units b) with
  | Lt => true
  | _ => false
  end.

(** A plain object used as a dictionary with non-numeric string keys:
    [Object.keys]/[Object.values] enumerate in insertion order, and
    assigning to an existing key keeps its position. *)
Definition Dict (V : Type) := list (string * V).

Fixpoint dict_get {V} (d : Dict V) (k : string) : option V :=
  match d with
  | [] => None
  | (k', v) :: d' => if decide (k' = k) then Some v else dict_get d' k
  end.

Fixpoint dict_set {V} (d : Dict V) (k : string) (v : V) : Dict V :=
  match d with
  | [] => [(k, v)]
  | (k', v') :: d' =>
      if decide (k' = k) then (k', v) :: d' else (k', v') :: dict_set d' k v
  end.

Definition Object_keys {V} (d : Dict V) : list string := map fst d.
Definition Object_values {V} (d : Dict V) : list V := map snd d.

End JS.
Export JS.

(** ** Domain records ([@types])

    The type declarations are not part of these sources.  Each record
    carries the fields that the embedded code reads or writes, under the
    names the code uses; one module per type keeps those names apart. *)

Abbreviation TUuid := string (only parsing).
Abbreviation TAddress := string (only parsing).
Abbreviation TTicker := string (only parsing).
Abbreviation NetworkId := string (only parsing).
(** [WalletId] is a string enum: its members are their own names. *)
Abbreviation WalletId := string (only parsing).

Module WalletIds.
Definition WEB3 : WalletId := "WEB3".
Definition VIEW_ONLY : WalletId := "VIEW_ONLY".
End WalletIds.

(** The transaction types that the store tells apart; the enum has
    further members. *)
Inductive ITxType : Type :=
| STANDARD
| DEFIZAP
| PURCHASE_MEMBERSHIP
| OTHER_TX_TYPE (tag : string).

(** A string enum whose members are non-empty strings: of the values of
    type [ITxStatus | undefined] only [undefined] is falsy. *)
Inductive ITxStatus : Type :=
| PENDING
| SUCCESS
| FAILED
| OTHER_TX_STATUS (tag : string).

Module Network.
Record t := { id : NetworkId; name : string; chainId : Z; baseAsset : TUuid }.
End Network.

Module Asset.
Record t := {
  uuid : TUuid;
  name : option string;
  ticker : TTicker;
  decimal : option nat;
  type : string;
  networkId : option NetworkId;
  coinGeckoId : option string  (* [mappings.coinGeckoId] *)
}.
End Asset.

Module StoreAsset.
(** An [Asset] with the balance (an integer amount of base units) held by
    one account, or summed over several. *)
Record t := {
  uuid : TUuid;
  name : option string;
  ticker : TTicker;
  decimal : option nat;
  type : string;
  networkId : option NetworkId;
  coinGeckoId : option string;
  balance : Z;
  mtime : Z
}.

(** [{ ...asset, balance }]. *)
Definition with_balance (asset : t) (balance' : Z) : t :=
  {| uuid := uuid asset; name := name asset; ticker := ticker asset;
     decimal := decimal asset; type := type asset;
     networkId := networkId asset; coinGeckoId := coinGeckoId asset;
     balance := balance'; mtime := mtime asset |}.
End StoreAsset.

Module StoreAccount.
(** Fields that the embedded code never reads ([transactions], [network])
    are left out. *)
Record t := {
  uuid : TUuid;
  address : TAddress;
  networkId : NetworkId;
  wallet : option WalletId;
  dPath : string;
  assets : list StoreAsset.t;
  label : string;
  favorite : bool;
  mtime : Z
}.
End StoreAccount.

Module ITxReceipt.
Record t := {
  hash : string;
  from : TAddress;
  blockNumber : option Z;
  network : option Network.t;
  senderAccount : option StoreAccount.t;
  txType : option ITxType;
  timestamp : Z;
  stage : ITxStatus
}.

(** [{ ...receipt, txType, timestamp, stage }]. *)
Definition with_status (receipt : t) (txType' : ITxType) (timestamp' : Z)
    (stage' : ITxStatus) : t :=
  {| hash := hash receipt; from := from receipt;
     blockNumber := blockNumber receipt; network := network receipt;
     senderAccount := senderAccount receipt;
     txType := Some txType'; timestamp := timestamp'; stage := stage' |}.
End ITxReceipt.

Module TransactionResponse.
(** What [provider.getTransactionByHash] resolves with. *)
Record t := { hash : string; from : TAddress; blockNumber : option Z; chainId : Z }.
End TransactionResponse.

Module AssetBalanceObject.
Record t := { uuid : TUuid; balance : string; mtime : Z }.
End AssetBalanceObject.

Module IRawAccount.
Record t := {
  address : TAddress;
  networkId : NetworkId;
  wallet : option WalletId;
  dPath : string;
  assets : list AssetBalanceObject.t;
  transactions : list ITxReceipt.t;
  favorite : bool;
  mtime : Z
}.
End IRawAccount.

Module IAccount.
(** [IRawAccount & { uuid }]. *)
Record t := {
  uuid : TUuid;
  address : TAddress;
  networkId : NetworkId;
  wallet : option WalletId;
  dPath : string;
  assets : list AssetBalanceObject.t;
  transactions : list ITxReceipt.t;
  favorite : bool;
  mtime : Z
}.

(** [const { uuid, ...restAccount } = account]: the second component. *)
Definition rest (account : t) : IRawAccount.t :=
  {| IRawAccount.address := address account;
     IRawAccount.networkId := networkId account;
     IRawAccount.wallet := wallet account;
     IRawAccount.dPath := dPath account;
     IRawAccount.assets := assets account;
     IRawAccount.transactions := transactions account;
     IRawAccount.favorite := favorite account;
     IRawAccount.mtime := mtime account |}.

(** [{ ...item, uuid }]: the account that [createAccountWithID(item, uuid)]
    is asked to create. *)
Definition of_raw (item : IRawAccount.t) (uuid' : TUuid) : t :=
  {| uuid := uuid';
     address := IRawAccount.address item;
     networkId := IRawAccount.networkId item;
     wallet := IRawAccount.wallet item;
     dPath := IRawAccount.dPath item;
     assets := IRawAccount.assets item;
     transactions := IRawAccount.transactions item;
     favorite := IRawAccount.favorite item;
     mtime := IRawAccount.mtime item |}.
End IAccount.

Module AddressBook.
Record t := { label : string; address : TAddress; notes : string; network : NetworkId }.
End AddressBook.

Module ExtendedAddressBook.
Record t := {
  uuid : TUuid; label : string; address : TAddress; notes : string; network : NetworkId
}.

(** [{ ...contact, label }]. *)
Definition with_label (contact : t) (label' : string) : t :=
  {| uuid := uuid contact; label := label'; address := address contact;
     notes := notes contact; network := network contact |}.
End ExtendedAddressBook.

Module Membership.
(** One entry of [MembershipStatus.memberships]: the membership type found
    for the contract (if any) and its expiry, a timestamp in seconds. *)
Record t := { type : option string; expiry : Z }.
End Membership.

Module MembershipStatus.
Record t := { address : TAddress; memberships : list Membership.t }.
End MembershipStatus.

Inductive MembershipState : Type := MEMBER | NOTMEMBER | EXPIRED | ERROR.

(** Calls into the account, settings and address-book contexts, and the
    two scans that the transaction poller starts. *)
Inductive Call : Type :=
| updateAccountsBalances (accountsWithBalances : list (option StoreAccount.t))
| addNewTransactionToAccount (senderAccount : option StoreAccount.t) (tx : ITxReceipt.t)
| scanAccountTokens (account : option StoreAccount.t)
| scanForMemberships_call (accountToScan : list (option StoreAccount.t))
| deleteAccount (account : IAccount.t)
| updateSettingsAccounts (dashboardAccounts : list TUuid)
| createAccountWithID (item : IRawAccount.t) (uuid : TUuid)
| updateContact (uuid : TUuid) (contact : ExtendedAddressBook.t)
| createContact (contact : AddressBook.t).

(** ** What the embedded files import

    Helpers, constants and services that the three files import from the
    rest of the application or from libraries, and whose code is not part
    of these sources.  They are parameters of the development. *)

Class Imports := {
  (* @utils *)
  convertToFiatFromAsset : StoreAsset.t → option Q → Q;
  weiToFloat : Z → option nat → Q;
  fromTxReceiptObj :
    TransactionResponse.t → list Asset.t → list Network.t → option ITxReceipt.t;
  isArrayEqual : list StoreAccount.t → list StoreAccount.t → bool;
  generateAccountUUID : NetworkId → TAddress → TUuid;
  getWeb3Config_id : string;                       (* [getWeb3Config().id] *)
  WalletId_lookup : string → option WalletId;      (* [WalletId[name]] *)
  (* @translations *)
  translateRaw : string → string;
  (* ./Network, ./Asset, ./AddressBook, ./BalanceService *)
  getNetworkById : NetworkId → list Network.t → option Network.t;
  getNewDefaultAssetTemplateByNetwork : list Asset.t → Network.t → Asset.t;
  findNextUnusedDefaultLabel : option WalletId → list ExtendedAddressBook.t → string;
  nestedToBigNumberJS :
    option (Dict (Dict Z)) → Settled (option (Dict (Dict Z)));
  (* @config, @features/PurchaseMembership/config *)
  DEFAULT_NETWORK : NetworkId;
  MEMBERSHIP_CONFIG_contractAddresses : list string;
  MEMBERSHIP_CONTRACTS : string → option string
}.

(** What the network answers: the value each request settles to. *)
Class Chain := {
  getUnlockTimestamps :
    Network.t → list TAddress → list string → Settled (Dict (Dict Z));
  getTransactionByHash : Network.t → string → Settled (option TransactionResponse.t);
  getTxStatus : Network.t → string → Settled (option ITxStatus);
  getTimestampFromBlockNum : option Z → Network.t → Settled (option Z);
  getAccountsAssetsBalances :
    list StoreAccount.t → Settled (list (option StoreAccount.t))
}.

(** ** [CeloWalletApi.ts] *)

Module AxiosResponse.
Record t (T : Type) := { data : T; status : Z }.
Arguments data {T} _.
Arguments status {T} _.
End AxiosResponse.

Module CeloWalletApiService.

(** The console and an [async] function body: it reads and extends the
    console and settles. *)
Definition Console := list (string * Exn).
Definition Async (A : Type) := Console → Settled A * Console.

#[global] Instance async_ret : MRet Async := λ A v c, (Fulfilled v, c).
#[global] Instance async_bind : MBind Async := λ A B k m c,
  match m c with
  | (Fulfilled v, c') => k v c'
  | (Rejected e, c') => (Rejected e, c')
  end.

Definition await {A} (p : Settled A) : Async A := λ c, (p, c).
Definition try_catch {A} (body : Async A) (handler : Exn → Async A) : Async A :=
  λ c, match body c with
       | (Fulfilled v, c') => (Fulfilled v, c')
       | (Rejected e, c') => handler e c'
       end.
Definition console_debug (message : string) (e : Exn) : Async unit :=
  λ c, (Fulfilled tt, (c ++ [(message, e)])%list).

(** The private field [service]. *)
Record AxiosInstance (T : Type) := {
  get : string → Settled (AxiosResponse.t T)
}.
Arguments get {T} _ _.

Definition getAssets {ExtendedAsset : Type}
    (service : AxiosInstance (gmap TUuid ExtendedAsset))
    : Async (gmap TUuid ExtendedAsset) :=
  try_catch
    (response ← await (get service "assets.json");
     mret (AxiosResponse.data response))
    (λ e,
     console_debug "[CeloWalletApiService]: Fetching assets failed: " e;;
     mret ∅).

(** The constructor, acting on the module variable [instantiated]
    (initially [false]): what it throws, if anything, and the new value
    of the variable. *)
Definition constructor (instantiated : bool) : option Exn * bool :=
  if instantiated then
    (Some (Error "CeloWalletApiService has already been instantiated."), instantiated)
  else (None, true).

(** [n] constructor calls in a row. *)
Fixpoint construct_times (n : nat) (instantiated : bool) : list (option Exn) * bool :=
  match n with
  | O => ([], instantiated)
  | S n' =>
      let '(thrown, instantiated') := constructor instantiated in
      let '(rest, final) := construct_times n' instantiated' in
      (thrown :: rest, final)
  end.

End CeloWalletApiService.

(** ** Library helpers used by the store ([lodash], [ramda], [bignumber.js]) *)

Module Lib.

(** [ramda/flatten] on an array of arrays of numbers. *)
Definition flatten {A} (l : list (list A)) : list A := concat l.

(** [lodash/isEmpty] on an account object or [undefined]: an account
    object has own enumerable keys, [undefined] has none. *)
Definition isEmpty {A} (value : option A) : bool :=
  match value with
  | None => true
  | Some _ => false
  end.

(** [lodash/unionBy(array, other, iteratee)]: the values of both arrays in
    order, keeping the first of those with equal [iteratee]. *)
Fixpoint uniqBy_from {A} (iteratee : A → string) (seen : list string)
    (l : list A) : list A :=
  match l with
  | [] => []
  | x :: l' =>
      if bool_decide (iteratee x ∈ seen) then uniqBy_from iteratee seen l'
      else x :: uniqBy_from iteratee (iteratee x :: seen) l'
  end.

Definition unionBy {A} (array other : list A) (iteratee : A → string) : list A :=
  uniqBy_from iteratee [] (array ++ other)%list.

(** [a.isGreaterThan(b)] on integral [BigNumber]s. *)
Definition isGreaterThan (a b : Z) : bool := b <? a.

(** [ramda/uniqBy(fn, list)]: the first element for each value of [fn]. *)
Definition uniqBy {A} (fn : A → string) (l : list A) : list A :=
  uniqBy_from fn [] l.

(** [ramda/sortBy(fn, list)] for a string-valued [fn]: a copy of the list
    sorted with the comparator
    [(a, b) => fn(a) < fn(b) ? -1 : fn(a) > fn(b) ? 1 : 0];
    strings compare by UTF-16 code units. *)
Definition sortBy {A} (fn : A → string) (l : list A) : list A :=
  Array_sort (λ a b,
      let aa := fn a in
      let bb := fn b in
      if string_lt aa bb then (-1)%Q else if string_lt bb aa then 1%Q else 0%Q)
    l.

(** [[...new Set(values)]]: the distinct values, in order of first
    occurrence. *)
Definition Set_values (values : list string) : list string :=
  uniqBy_from (λ v, v) [] values.

End Lib.

(** ** [StoreProvider.tsx] *)

(** The component's own state ([useState]) together with the log of the
    calls it made into other contexts. *)
Module Store.
Record t := {
  accountRestore : gmap string (option IAccount.t);
  memberships : option (list MembershipStatus.t);
  calls : list Call
}.
End Store.

Module StoreProvider.
Import Lib.

Definition setAccountRestore
    (update : gmap string (option IAccount.t) → gmap string (option IAccount.t))
    (st : Store.t) : Store.t :=
  {| Store.accountRestore := update (Store.accountRestore st);
     Store.memberships := Store.memberships st;
     Store.calls := Store.calls st |}.

Definition setMemberships
    (update : option (list MembershipStatus.t) → option (list MembershipStatus.t))
    (st : Store.t) : Store.t :=
  {| Store.accountRestore := Store.accountRestore st;
     Store.memberships := update (Store.memberships st);
     Store.calls := Store.calls st |}.

Definition call (c : Call) (st : Store.t) : Store.t :=
  {| Store.accountRestore := Store.accountRestore st;
     Store.memberships := Store.memberships st;
     Store.calls := (Store.calls st ++ [c])%list |}.

(** How a function body ends: normally, or by throwing; in both cases
    with the store it leaves behind. *)
Inductive Completion (A : Type) : Type :=
| Normal (result : A) (st : Store.t)
| Throw (e : Exn) (st : Store.t).
Arguments Normal {A} result st.
Arguments Throw {A} e st.

(** State of one run of an effect: its mounted-flag and the calls that
    its asynchronous completions have made so far. *)
Module Effect.
Record t := { isMounted : bool; calls : list Call }.
Definition start : t := {| isMounted := true; calls := [] |}.
Definition cleanup (e : t) : t := {| isMounted := false; calls := calls e |}.
Definition emit (cs : list Call) (e : t) : t :=
  {| isMounted := isMounted e; calls := (calls e ++ cs)%list |}.
End Effect.

Section Render.
Context `{Imports} `{Chain}.

(** Values of the current render: what [useContext], [useState] and
    [useMemo] returned. *)
Variable getAccountByAddressAndNetworkName :
  TAddress → NetworkId → option StoreAccount.t.
Variable getContactByAddressAndNetworkId :
  TAddress → NetworkId → option ExtendedAddressBook.t.
Variable assets : list Asset.t.
Variable networks : list Network.t.
Variable contacts : list ExtendedAddressBook.t.
Variable settings_dashboardAccounts : list TUuid.
Variable accountRestore : gmap string (option IAccount.t).
Variable memberships : option (list MembershipStatus.t).
Variable accounts : list StoreAccount.t.
Variable currentAccounts : list StoreAccount.t.
(** The clock: what [Date.now()] returns, in milliseconds. *)
Variable Date_now : Z.

Definition membershipExpirations : list Z :=
  match memberships with
  | Some ms =>
      flatten
        (map (λ m, map Membership.expiry (MembershipStatus.memberships m)) ms)
  | None => []
  end.

Definition membershipState : MembershipState :=
  match memberships with
  | None => ERROR
  | Some ms =>
      if (length ms =? 0)%nat then NOTMEMBER
      else
        let currentTime := Math_round_div1000 Date_now in
        if existsb (λ expirationTime, isGreaterThan expirationTime currentTime)
             membershipExpirations
        then MEMBER
        else EXPIRED
  end.

Definition isCeloWalletMember : bool :=
  match membershipState with
  | MEMBER => true
  | _ => false
  end.

(** *** The balance poll *)

(** The completion of [getAccountsAssetsBalances(currentAccounts)]. *)
Definition onBalancesFetched (isMounted : bool)
    (accountsWithBalances : list (option StoreAccount.t)) : list Call :=
  if isMounted && negb (isArrayEqual currentAccounts (omap id accountsWithBalances))
  then [updateAccountsBalances accountsWithBalances]
  else [].

Inductive BalanceEvent : Type :=
| BalancesFetched (accountsWithBalances : list (option StoreAccount.t))
| BalanceCleanup.

Definition balance_step (e : Effect.t) (ev : BalanceEvent) : Effect.t :=
  match ev with
  | BalancesFetched accountsWithBalances =>
      Effect.emit (onBalancesFetched (Effect.isMounted e) accountsWithBalances) e
  | BalanceCleanup => Effect.cleanup e
  end.

Definition balance_run (evs : list BalanceEvent) (e : Effect.t) : Effect.t :=
  fold_left balance_step evs e.

(** *** The membership scan *)

Definition relevantAccounts (accountToScan : option (list StoreAccount.t))
    : list StoreAccount.t :=
  List.filter (λ account,
      negb (bool_decide (StoreAccount.wallet account = Some WalletIds.VIEW_ONLY)))
    (List.filter (λ account,
        bool_decide (StoreAccount.networkId account = DEFAULT_NETWORK))
      (match accountToScan with
       | Some accountToScan => accountToScan
       | None => currentAccounts
       end)).

(** [.catch((_) => { setMemberships(undefined); })]: a rejection is
    handled and the promise goes on with [undefined]. *)
Definition scan_catch (lookup : Settled (Dict (Dict Z))) (st : Store.t)
    : Settled (option (Dict (Dict Z))) * Store.t :=
  match lookup with
  | Fulfilled timestamps => (Fulfilled (Some timestamps), st)
  | Rejected _ => (Fulfilled None, setMemberships (λ _, None) st)
  end.

(** The memberships read off the converted timestamps; the entries of
    [expiries] and of [expiries[address]] are visited in key order. *)
Definition newMemberships (expiries : Dict (Dict Z)) : list MembershipStatus.t :=
  List.filter (λ m, negb (length (MembershipStatus.memberships m) =? 0)%nat)
    (map (λ '(address, byContract),
        {| MembershipStatus.address := address;
           MembershipStatus.memberships :=
             map (λ '(contract, expiry),
                 {| Membership.type := MEMBERSHIP_CONTRACTS contract;
                    Membership.expiry := expiry |})
               (List.filter (λ '(contract, expiry), isGreaterThan expiry 0)
                  byContract) |})
       expiries).

(** [.then((expiries) => { ... setMemberships(unionBy(...)) })];
    [Object.keys(undefined)] throws. *)
Definition scan_then (expiries : option (Dict (Dict Z))) (st : Store.t)
    : Settled unit * Store.t :=
  match expiries with
  | None => (Rejected (TypeError "Cannot convert undefined or null to object"), st)
  | Some expiries =>
      (Fulfilled tt,
       setMemberships (λ _,
           Some (unionBy (newMemberships expiries)
                   (match memberships with Some ms => ms | None => [] end)
                   MembershipStatus.address))
         st)
  end.

Definition scanForMemberships (accountToScan : option (list StoreAccount.t))
    (st : Store.t) : Store.t :=
  match List.find (λ n, bool_decide (DEFAULT_NETWORK = Network.id n)) networks with
  | None => st
  | Some network =>
      if (length (relevantAccounts accountToScan) =? 0)%nat then st
      else
        let provider := network in
        let '(caught, st1) :=
          scan_catch
            (getUnlockTimestamps provider
               (map StoreAccount.address (relevantAccounts accountToScan))
               MEMBERSHIP_CONFIG_contractAddresses)
            st in
        match then_ caught nestedToBigNumberJS with
        | Fulfilled expiries => snd (scan_then expiries st1)
        | Rejected _ => st1
        end
  end.

(** *** The pending-transaction poll *)

(** Handler of [provider.getTransactionByHash(hash)]: the receipt for
    which status and timestamp are looked up next, if any. *)
Definition onTransactionByHash (transactionReceipt : option TransactionResponse.t)
    : option ITxReceipt.t :=
  match transactionReceipt with
  | None => None
  | Some transactionReceipt => fromTxReceiptObj transactionReceipt assets networks
  end.

(** [pendingTransactionObject.senderAccount ||
    getAccountByAddressAndNetworkName(receipt.from, network.id)]. *)
Definition senderAccountOf (pendingTransactionObject : ITxReceipt.t)
    (network : Network.t) (receipt : ITxReceipt.t) : option StoreAccount.t :=
  match ITxReceipt.senderAccount pendingTransactionObject with
  | Some account => Some account
  | None =>
      getAccountByAddressAndNetworkName (ITxReceipt.from receipt) (Network.id network)
  end.

(** Handler of [Promise.all([getTxStatus(..), getTimestampFromBlockNum(..)])];
    [isMounted] is the flag as it is when the handler runs. *)
Definition onStatusAndTimestamp (isMounted : bool)
    (pendingTransactionObject : ITxReceipt.t) (network : Network.t)
    (receipt : ITxReceipt.t)
    (txStatus : option ITxStatus) (txTimestamp : option Z) : list Call :=
  if negb isMounted || negb (bool_decide (is_Some txStatus))
     || negb (truthy_number txTimestamp)
  then []
  else
    match txStatus, txTimestamp with
    | Some txStatus, Some txTimestamp =>
        let senderAccount :=
          senderAccountOf pendingTransactionObject network receipt in
        (addNewTransactionToAccount senderAccount
           (ITxReceipt.with_status receipt
              (match ITxReceipt.txType pendingTransactionObject with
               | Some txType => txType
               | None => STANDARD
               end)
              txTimestamp txStatus)
         :: match ITxReceipt.txType pendingTransactionObject with
            | Some DEFIZAP => [scanAccountTokens senderAccount]
            | Some PURCHASE_MEMBERSHIP => [scanForMemberships_call [senderAccount]]
            | _ => []
            end)%list
    | _, _ => []
    end.

(** One pending transaction in one round of the interval: the calls made
    once its lookups have settled. *)
Definition pollPendingTransaction (isMounted : bool)
    (pendingTransactionObject : ITxReceipt.t) : list Call :=
  match ITxReceipt.network pendingTransactionObject with
  | None => []
  | Some network =>
      let provider := network in
      match getTransactionByHash provider (ITxReceipt.hash pendingTransactionObject) with
      | Rejected _ => []
      | Fulfilled transactionReceipt =>
          match onTransactionByHash transactionReceipt with
          | None => []
          | Some receipt =>
              match Promise_all (getTxStatus provider (ITxReceipt.hash receipt))
                      (getTimestampFromBlockNum (ITxReceipt.blockNumber receipt) provider)
              with
              | Rejected _ => []
              | Fulfilled (txStatus, txTimestamp) =>
                  onStatusAndTimestamp isMounted pendingTransactionObject network
                    receipt txStatus txTimestamp
              end
          end
      end
  end.

(** One round: [pendingTransactions.forEach(...)]. *)
Definition txStatusLookupRound (isMounted : bool)
    (pendingTransactions : list ITxReceipt.t) : list Call :=
  flat_map (pollPendingTransaction isMounted) pendingTransactions.

Inductive TxEvent : Type :=
| StatusAndTimestampSettled (pendingTransactionObject : ITxReceipt.t)
    (network : Network.t) (receipt : ITxReceipt.t)
    (txStatus : option ITxStatus) (txTimestamp : option Z)
| TxCleanup.

Definition tx_step (e : Effect.t) (ev : TxEvent) : Effect.t :=
  match ev with
  | StatusAndTimestampSettled p network receipt txStatus txTimestamp =>
      Effect.emit
        (onStatusAndTimestamp (Effect.isMounted e) p network receipt txStatus txTimestamp)
        e
  | TxCleanup => Effect.cleanup e
  end.

Definition tx_run (evs : list TxEvent) (e : Effect.t) : Effect.t :=
  fold_left tx_step evs e.

(** *** Totals *)

Definition state_assets (selectedAccounts : option (list StoreAccount.t))
    : list StoreAsset.t :=
  flat_map StoreAccount.assets
    (match selectedAccounts with Some l => l | None => accounts end).

(** Modelled from the spec: [getTotalByAsset] (imported from [./Asset]) is
    not among the sources.  The spec says that the aggregation "sums asset
    balances across accounts"; its result is a dictionary (the caller
    takes [Object.values] of it) with one entry per asset, keyed by the
    asset's uuid, whose balance is the running sum. *)
Definition getTotalByAsset (assets : list StoreAsset.t) : Dict StoreAsset.t :=
  fold_left (λ dict asset,
      match dict_get dict (StoreAsset.uuid asset) with
      | Some prev =>
          dict_set dict (StoreAsset.uuid asset)
            (StoreAsset.with_balance prev
               (StoreAsset.balance prev + StoreAsset.balance asset))
      | None => dict_set dict (StoreAsset.uuid asset) asset
      end)
    assets [].

Definition totals (selectedAccounts : option (list StoreAccount.t))
    : list StoreAsset.t :=
  Object_values
    (getTotalByAsset
       (state_assets
          (Some (match selectedAccounts with Some l => l | None => accounts end)))).

Definition totalFiat (selectedAccounts : option (list StoreAccount.t))
    (getAssetRate : StoreAsset.t → option Q) : number :=
  fold_left (λ sum asset,
      number_add sum (Finite (convertToFiatFromAsset asset (getAssetRate asset))))
    (totals (Some (match selectedAccounts with Some l => l | None => accounts end)))
    (Finite 0).

(** *** The account cache *)

Definition deleteAccountFromCache (account : IAccount.t) (st : Store.t) : Store.t :=
  let st := setAccountRestore (λ prevState,
                <[IAccount.uuid account := Some account]> prevState) st in
  let st := call (deleteAccount account) st in
  let st := call (updateSettingsAccounts
                    (List.filter (λ dashboardUUID,
                         negb (bool_decide (dashboardUUID = IAccount.uuid account)))
                       settings_dashboardAccounts)) st in
  setMemberships (λ prevState,
      List.filter (λ s,
          negb (bool_decide (MembershipStatus.address s = IAccount.address account)))
      <$> prevState) st.

Definition restoreDeletedAccount (accountId : TUuid) (st : Store.t)
    : Completion unit :=
  let account := mjoin (accountRestore !! accountId) in
  if isEmpty account then
    Throw (Error "Unable to restore account! No account with id specified.") st
  else
    match account with
    | None => Throw (TypeError "Cannot destructure 'account' as it is undefined.") st
    | Some account =>
        let uuid := IAccount.uuid account in
        let restAccount := IAccount.rest account in
        let st := call (createAccountWithID restAccount uuid) st in
        Normal tt (setAccountRestore (λ prevState, <[uuid := None]> prevState) st)
    end.

(** *** [addAccount] *)

Definition addAccount (networkId : NetworkId) (address : TAddress)
    (accountType : option WalletId) (dPath : string) (st : Store.t)
    : option IRawAccount.t * Store.t :=
  let network := getNetworkById networkId networks in
  match network with
  | None => (None, st)
  | Some network =>
      if negb (truthy_string address)
         || bool_decide (is_Some (getAccountByAddressAndNetworkName address networkId))
      then (None, st)
      else
        let walletType :=
          if bool_decide (accountType = Some WalletIds.WEB3)
          then WalletId_lookup getWeb3Config_id
          else accountType in
        let newAsset := getNewDefaultAssetTemplateByNetwork assets network in
        let accountUUID := generateAccountUUID networkId address in
        let account :=
          {| IRawAccount.address := address;
             IRawAccount.networkId := networkId;
             IRawAccount.wallet := walletType;
             IRawAccount.dPath := dPath;
             IRawAccount.assets :=
               [ {| AssetBalanceObject.uuid := Asset.uuid newAsset;
                    AssetBalanceObject.balance := "0";
                    AssetBalanceObject.mtime := Date_now |} ];
             IRawAccount.transactions := [];
             IRawAccount.favorite := false;
             IRawAccount.mtime := 0 |} in
        let existingContact :=
          getContactByAddressAndNetworkId (IRawAccount.address account) networkId in
        let st :=
          match existingContact with
          | Some existingContact =>
              call (updateContact (ExtendedAddressBook.uuid existingContact)
                      (ExtendedAddressBook.with_label existingContact
                         (findNextUnusedDefaultLabel (IRawAccount.wallet account)
                            contacts)))
                st
          | None =>
              let newLabel :=
                {| AddressBook.label :=
                     findNextUnusedDefaultLabel (IRawAccount.wallet account) contacts;
                   AddressBook.address := IRawAccount.address account;
                   AddressBook.notes := "";
                   AddressBook.network := IRawAccount.networkId account |} in
              call (createContact newLabel) st
          end in
        let st := call (createAccountWithID account accountUUID) st in
        (Some account, st)
  end.

(** *** Derived values of the state object *)

Definition coinGeckoAssetManifest : gmap string string :=
  fold_left (λ manifest asset,
      match Asset.coinGeckoId asset with
      | Some coinGeckoId =>
          if truthy_string coinGeckoId
          then <[Asset.uuid asset := coinGeckoId]> manifest
          else manifest
      | None => manifest
      end)
    assets ∅.

Definition userAssets : list StoreAsset.t :=
  let userAssets :=
    flat_map StoreAccount.assets
      (List.filter (λ a,
           negb (bool_decide (StoreAccount.wallet a = Some WalletIds.VIEW_ONLY)))
         accounts) in
  let uniq := uniqBy StoreAsset.uuid userAssets in
  sortBy StoreAsset.ticker uniq.

Definition tokens (selectedAssets : option (list StoreAsset.t)) : list StoreAsset.t :=
  List.filter (λ asset, negb (bool_decide (StoreAsset.type asset = "base")))
    (match selectedAssets with Some l => l | None => state_assets None end).

Definition assetTickers (targetAssets : option (list StoreAsset.t)) : list TTicker :=
  Set_values
    (map StoreAsset.ticker
       (match targetAssets with Some l => l | None => state_assets None end)).

Definition assetUUIDs (targetAssets : option (list StoreAsset.t)) : list TUuid :=
  Set_values
    (map StoreAsset.uuid
       (match targetAssets with Some l => l | None => state_assets None end)).

Definition getAccount (a : IRawAccount.t) : option StoreAccount.t :=
  List.find (λ account,
      bool_decide (StoreAccount.address account = IRawAccount.address a)
      && bool_decide (StoreAccount.networkId account = IRawAccount.networkId a))
    accounts.

End Render.

(** Every account in the cache is filed under its own uuid: the cache
    starts empty and both operations keep it so. *)
Definition filed_by_uuid (accountRestore : gmap string (option IAccount.t)) : Prop :=
  ∀ k account, accountRestore !! k = Some (Some account) → IAccount.uuid account = k.

(** A history of the account cache: deletions and restorations, each
    made from the render that follows the previous one; a restoration
    that throws leaves the store as it is. *)
Inductive CacheOp : Type :=
| DeleteFromCache (settings_dashboardAccounts : list TUuid) (account : IAccount.t)
| RestoreDeleted (accountId : TUuid).

Definition cache_step (st : Store.t) (op : CacheOp) : Store.t :=
  match op with
  | DeleteFromCache settings_dashboardAccounts account =>
      deleteAccountFromCache settings_dashboardAccounts account st
  | RestoreDeleted accountId =>
      match restoreDeletedAccount (Store.accountRestore st) accountId st with
      | Normal _ st' => st'
      | Throw _ st' => st'
      end
  end.

Definition cache_run (ops : list CacheOp) (st : Store.t) : Store.t :=
  fold_left cache_step ops st.

End StoreProvider.

(** ** The [WalletBreakdown] component *)

Module BalanceAccount.
Record t := {
  address : TAddress; ticker : TTicker; amount : Q; fiatValue : Q; label : string
}.
End BalanceAccount.

Module Balance.
Record t := {
  id : string;
  name : string;
  ticker : TTicker;
  uuid : TUuid;
  amount : Q;
  fiatValue : Q;
  exchangeRate : option Q;
  accounts : list BalanceAccount.t
}.
End Balance.

Module WalletBreakdown.

(** Modelled from the spec: [isExcludedAsset] (imported from
    [@services/Store/helpers]) is not among the sources.  It is the
    predicate handed to [filter]; by the spec the list computed with it
    "excludes" the assets "excluded per settings", so it holds of the
    assets whose uuid is not in [settings.excludedAssets]. *)
Definition isExcludedAsset (excludedAssetUuids : list TUuid)
    (asset : StoreAsset.t) : bool :=
  negb (bool_decide (StoreAsset.uuid asset ∈ excludedAssetUuids)).

Section Render.
Context `{Imports}.

(** [useContext(StoreContext)], [useContext(SettingsContext)] and
    [useContext(RatesContext)]. *)
Variable accounts : list StoreAccount.t.
Variable currentAccounts : list StoreAccount.t.
Variable settings_excludedAssets : list TUuid.
Variable getAssetRate : StoreAsset.t → option Q.

(** [`${asset.name}-${asset.ticker}`]. *)
Definition balance_id (asset : StoreAsset.t) : string :=
  (match StoreAsset.name asset with Some n => n | None => "undefined" end)
  +:+ "-" +:+ StoreAsset.ticker asset.

Definition toBalance (asset : StoreAsset.t) : Balance.t :=
  let exchangeRate := getAssetRate asset in
  {| Balance.id := balance_id asset;
     Balance.name :=
       match StoreAsset.name asset with
       | Some n => if truthy_string n then n
                   else translateRaw "WALLET_BREAKDOWN_UNKNOWN"
       | None => translateRaw "WALLET_BREAKDOWN_UNKNOWN"
       end;
     Balance.ticker := StoreAsset.ticker asset;
     Balance.uuid := StoreAsset.uuid asset;
     Balance.amount := weiToFloat (StoreAsset.balance asset) (StoreAsset.decimal asset);
     Balance.fiatValue := convertToFiatFromAsset asset exchangeRate;
     Balance.exchangeRate := exchangeRate;
     Balance.accounts :=
       fold_left (λ acc currAccount,
           let matchingAccAssets :=
             List.filter (λ accAsset,
                 bool_decide (StoreAsset.uuid accAsset = StoreAsset.uuid asset))
               (StoreAccount.assets currAccount) in
           if negb (length matchingAccAssets =? 0)%nat then
             (acc ++
              map (λ accAsset,
                  {| BalanceAccount.address := StoreAccount.address currAccount;
                     BalanceAccount.ticker := StoreAsset.ticker accAsset;
                     BalanceAccount.amount :=
                       weiToFloat (StoreAsset.balance accAsset)
                         (StoreAsset.decimal accAsset);
                     BalanceAccount.fiatValue :=
                       convertToFiatFromAsset accAsset exchangeRate;
                     BalanceAccount.label := StoreAccount.label currAccount |})
                matchingAccAssets)%list
           else acc)
         currentAccounts [] |}.

Definition balances : list Balance.t :=
  Array_sort (λ a b, (Balance.fiatValue b - Balance.fiatValue a)%Q)
    (map toBalance
       (List.filter (isExcludedAsset settings_excludedAssets)
          (StoreProvider.totals accounts (Some currentAccounts)))).

Definition totalFiatValue : number :=
  fold_left (λ sum asset, number_add sum (Finite (Balance.fiatValue asset)))
    balances (Finite 0).

End Render.
End WalletBreakdown.

(** ** The spec's wording of the fiat total

    "The balance-aggregation routine sums asset balances across accounts
    and converts to fiat by calling an externally supplied rate function":
    one total per asset, in the order in which the assets are first met,
    each the sum of that asset's balances across the selected accounts. *)

Module TotalsSpec.

(** The assets of a list, each once: the first holding of each uuid. *)
Fixpoint distinctAssets (l : list StoreAsset.t) : list StoreAsset.t :=
  match l with
  | [] => []
  | a :: l' =>
      a :: List.filter (λ b, negb (bool_decide (StoreAsset.uuid b = StoreAsset.uuid a)))
             (distinctAssets l')
  end.

(** The sum of the balances held of the asset [uuid]. *)
Definition balanceOf (uuid : TUuid) (l : list StoreAsset.t) : Z :=
  foldr Z.add 0
    (map StoreAsset.balance
       (List.filter (λ b, bool_decide (StoreAsset.uuid b = uuid)) l)).

Definition perAssetTotals (selectedAccounts : list StoreAccount.t)
    : list StoreAsset.t :=
  let held := flat_map StoreAccount.assets selectedAccounts in
  map (λ a, StoreAsset.with_balance a (balanceOf (StoreAsset.uuid a) held))
    (distinctAssets held).


End TotalsSpec.

(** ** A concrete application

    One choice of the imported helpers and two networks (one that answers,
    one that is unreachable), on which the definitions above can be run. *)

Module Sample.

Definition imports : Imports := {|
  convertToFiatFromAsset := λ asset rate,
    (inject_Z (StoreAsset.balance asset)
     * match rate with Some r => r | None => 1 end)%Q;
  weiToFloat := λ wei _, inject_Z wei;
  fromTxReceiptObj := λ tr _ networks,
    match List.find (λ n, Network.chainId n =? TransactionResponse.chainId tr) networks with
    | Some n =>
        Some {| ITxReceipt.hash := TransactionResponse.hash tr;
                ITxReceipt.from := TransactionResponse.from tr;
                ITxReceipt.blockNumber := TransactionResponse.blockNumber tr;
                ITxReceipt.network := Some n;
                ITxReceipt.senderAccount := None;
                ITxReceipt.txType := None;
                ITxReceipt.timestamp := 0;
                ITxReceipt.stage := PENDING |}
    | None => None
    end;
  isArrayEqual := λ a b, bool_decide (map StoreAccount.uuid a = map StoreAccount.uuid b);
  generateAccountUUID := λ networkId address, networkId +:+ ":" +:+ address;
  getWeb3Config_id := "METAMASK";
  WalletId_lookup := λ name, Some name;
  translateRaw := λ key, key;
  getNetworkById := λ networkId networks,
    List.find (λ n, bool_decide (Network.id n = networkId)) networks;
  getNewDefaultAssetTemplateByNetwork := λ _ network,
    {| Asset.uuid := Network.baseAsset network;
       Asset.name := Some (Network.name network);
       Asset.ticker := Network.id network;
       Asset.decimal := Some 18%nat;
       Asset.type := "base";
       Asset.networkId := Some (Network.id network);
       Asset.coinGeckoId := None |};
  findNextUnusedDefaultLabel := λ _ _, "Account 1";
  nestedToBigNumberJS := λ balances,
    match balances with
    | Some b => Fulfilled (Some b)
    | None => Rejected (TypeError "Cannot convert undefined or null to object")
    end;
  DEFAULT_NETWORK := "Celo";
  MEMBERSHIP_CONFIG_contractAddresses := ["0xmonthly"; "0xyearly"];
  MEMBERSHIP_CONTRACTS := λ contract,
    if bool_decide (contract = "0xmonthly") then Some "onemonth"
    else if bool_decide (contract = "0xyearly") then Some "twelvemonths"
    else None
|}.

Definition unreachable : Chain := {|
  getUnlockTimestamps := λ _ _ _, Rejected (Error "Network Error");
  getTransactionByHash := λ _ _, Rejected (Error "Network Error");
  getTxStatus := λ _ _, Rejected (Error "Network Error");
  getTimestampFromBlockNum := λ _ _, Rejected (Error "Network Error");
  getAccountsAssetsBalances := λ _, Rejected (Error "Network Error")
|}.

(** A chain on which every transaction is mined in block 7, at time
    1600000000, and has succeeded. *)
Definition mined : Chain := {|
  getUnlockTimestamps := λ _ addresses _,
    Fulfilled (map (λ a, (a, [("0xmonthly", 1700000000)])) addresses);
  getTransactionByHash := λ _ hash,
    Fulfilled (Some {| TransactionResponse.hash := hash;
                       TransactionResponse.from := "0xsender";
                       TransactionResponse.blockNumber := Some 7;
                       TransactionResponse.chainId := 42220 |});
  getTxStatus := λ _ _, Fulfilled (Some SUCCESS);
  getTimestampFromBlockNum := λ _ _, Fulfilled (Some 1600000000);
  getAccountsAssetsBalances := λ accounts, Fulfilled (map Some accounts)
|}.

(** A chain like [mined], except that the block's timestamp is reported
    as 0. *)
Definition epoch : Chain := {|
  getUnlockTimestamps := @getUnlockTimestamps mined;
  getTransactionByHash := @getTransactionByHash mined;
  getTxStatus := @getTxStatus mined;
  getTimestampFromBlockNum := λ _ _, Fulfilled (Some 0);
  getAccountsAssetsBalances := @getAccountsAssetsBalances mined
|}.

Definition celo : Network.t :=
  {| Network.id := "Celo"; Network.name := "Celo";
     Network.chainId := 42220; Network.baseAsset := "uuid-celo" |}.

Definition CELO (balance : Z) : StoreAsset.t :=
  {| StoreAsset.uuid := "uuid-celo"; StoreAsset.name := Some "Celo";
     StoreAsset.ticker := "CELO"; StoreAsset.decimal := Some 18%nat;
     StoreAsset.type := "base"; StoreAsset.networkId := Some "Celo";
     StoreAsset.coinGeckoId := Some "celo";
     StoreAsset.balance := balance; StoreAsset.mtime := 0 |}.

Definition cUSD (balance : Z) : StoreAsset.t :=
  {| StoreAsset.uuid := "uuid-cusd"; StoreAsset.name := Some "Celo Dollar";
     StoreAsset.ticker := "cUSD"; StoreAsset.decimal := Some 18%nat;
     StoreAsset.type := "erc20"; StoreAsset.networkId := Some "Celo";
     StoreAsset.coinGeckoId := Some "celo-dollar";
     StoreAsset.balance := balance; StoreAsset.mtime := 0 |}.

Definition storeAccount (address : TAddress) (assets : list StoreAsset.t)
    : StoreAccount.t :=
  {| StoreAccount.uuid := "Celo:" +:+ address; StoreAccount.address := address;
     StoreAccount.networkId := "Celo"; StoreAccount.wallet := Some "LEDGER";
     StoreAccount.dPath := "m/44'/52752'/0'/0/0"; StoreAccount.assets := assets;
     StoreAccount.label := "Account"; StoreAccount.favorite := false;
     StoreAccount.mtime := 0 |}.

Definition alice : StoreAccount.t := storeAccount "0xalice" [CELO 5; cUSD 2].
Definition bob : StoreAccount.t := storeAccount "0xbob" [cUSD 40; CELO 1].

Definition cachedAccount : IAccount.t :=
  {| IAccount.uuid := "Celo:0xalice"; IAccount.address := "0xalice";
     IAccount.networkId := "Celo"; IAccount.wallet := Some "LEDGER";
     IAccount.dPath := "m/44'/52752'/0'/0/0"; IAccount.assets := [];
     IAccount.transactions := []; IAccount.favorite := false; IAccount.mtime := 0 |}.

Definition pendingTx : ITxReceipt.t :=
  {| ITxReceipt.hash := "0xhash"; ITxReceipt.from := "0xsender";
     ITxReceipt.blockNumber := None; ITxReceipt.network := Some celo;
     ITxReceipt.senderAccount := Some alice;
     ITxReceipt.txType := Some PURCHASE_MEMBERSHIP;
     ITxReceipt.timestamp := 0; ITxReceipt.stage := PENDING |}.

Definition emptyStore : Store.t :=
  {| Store.accountRestore := ∅; Store.memberships := Some []; Store.calls := [] |}.

Definition noAccount : TAddress → NetworkId → option StoreAccount.t := λ _ _, None.
Definition noContact : TAddress → NetworkId → option ExtendedAddressBook.t :=
  λ _ _, None.

(** An HTTP client whose requests all fail, and one that serves a
    manifest with a single asset. *)
Definition failingService : CeloWalletApiService.AxiosInstance (gmap string Asset.t) :=
  {| CeloWalletApiService.get := λ _, Rejected (Error "Network Error") |}.

Definition manifest : gmap string Asset.t :=
  {[ "uuid-celo" :=
       {| Asset.uuid := "uuid-celo"; Asset.name := Some "Celo"; Asset.ticker := "CELO";
          Asset.decimal := Some 18%nat; Asset.type := "base";
          Asset.networkId := Some "Celo"; Asset.coinGeckoId := Some "celo" |} ]}.

Definition servingService : CeloWalletApiService.AxiosInstance (gmap string Asset.t) :=
  {| CeloWalletApiService.get := λ _,
       Fulfilled {| AxiosResponse.data := manifest; AxiosResponse.status := 200 |} |}.

End Sample.

(* ===================================================================== *)
(** * Part II: properties                                                *)
(* ===================================================================== *)

(** ** Membership state *)

Module MembershipProperties.
Import Lib StoreProvider.

Lemma in_membershipExpirations (ms : list MembershipStatus.t) (t : Z) :
  In t (membershipExpirations (Some ms)) ↔
  ∃ m e, m ∈ ms ∧ e ∈ MembershipStatus.memberships m ∧ Membership.expiry e = t.
Proof.
  unfold membershipExpirations, flatten. rewrite in_concat. split.
  - intros (l & Hl & Ht). apply in_map_iff in Hl as (m & <- & Hm).
    apply in_map_iff in Ht as (e & <- & He).
    exists m, e. rewrite <- !list_elem_of_In in *. auto.
  - intros (m & e & Hm & He & <-).
    exists (map Membership.expiry (MembershipStatus.memberships m)). split.
    + apply in_map_iff. exists m. split; [reflexivity|]. by apply list_elem_of_In.
    + apply in_map. by apply list_elem_of_In.
Qed.

Lemma some_unexpired_spec (ms : list MembershipStatus.t) (currentTime : Z) :
  existsb (λ expirationTime, isGreaterThan expirationTime currentTime)
    (membershipExpirations (Some ms)) = true ↔
  ∃ m e, m ∈ ms ∧ e ∈ MembershipStatus.memberships m
         ∧ currentTime < Membership.expiry e.
Proof.
  rewrite existsb_exists. unfold isGreaterThan. split.
  - intros (t & Ht & Hlt). apply in_membershipExpirations in Ht as (m & e & ? & ? & <-).
    exists m, e. repeat split; auto. by apply Z.ltb_lt.
  - intros (m & e & Hm & He & Hlt). exists (Membership.expiry e). split.
    + apply in_membershipExpirations. eauto.
    + by apply Z.ltb_lt.
Qed.

(** C1. The membership state is [ERROR] exactly when [memberships] is
    undefined, [NOTMEMBER] exactly when it is defined and empty, and for a
    non-empty list [MEMBER] exactly when some membership expires strictly
    after the current time in seconds, [EXPIRED] exactly when none does;
    [isCeloWalletMember] holds exactly in state [MEMBER].  The current
    time in seconds is the clock's reading in milliseconds rounded to the
    nearest second: the number of seconds within half a second of it. *)
Theorem membershipState_classification
    (memberships : option (list MembershipStatus.t)) (Date_now : Z) :
  let state := membershipState memberships Date_now in
  let currentTime := Math_round_div1000 Date_now in
  let unexpired (ms : list MembershipStatus.t) :=
    ∃ m e, m ∈ ms ∧ e ∈ MembershipStatus.memberships m
           ∧ currentTime < Membership.expiry e in
  (state = ERROR ↔ memberships = None) ∧
  (state = NOTMEMBER ↔ memberships = Some []) ∧
  (state = MEMBER ↔ ∃ ms, memberships = Some ms ∧ ms ≠ [] ∧ unexpired ms) ∧
  (state = EXPIRED ↔ ∃ ms, memberships = Some ms ∧ ms ≠ [] ∧ ¬ unexpired ms) ∧
  (isCeloWalletMember memberships Date_now = true ↔ state = MEMBER) ∧
  1000 * currentTime - 500 ≤ Date_now ≤ 1000 * currentTime + 499.
Proof.
  intros state currentTime unexpired. subst state.
  assert (Hclock : 1000 * currentTime - 500 ≤ Date_now ≤ 1000 * currentTime + 499).
  { subst currentTime. unfold Math_round_div1000.
    pose proof (Z.div_mod (Date_now + 500) 1000 ltac:(lia)).
    pose proof (Z.mod_pos_bound (Date_now + 500) 1000 ltac:(lia)). lia. }
  cut ((membershipState memberships Date_now = ERROR ↔ memberships = None) ∧
       (membershipState memberships Date_now = NOTMEMBER ↔ memberships = Some []) ∧
       (membershipState memberships Date_now = MEMBER
        ↔ ∃ ms, memberships = Some ms ∧ ms ≠ [] ∧ unexpired ms) ∧
       (membershipState memberships Date_now = EXPIRED
        ↔ ∃ ms, memberships = Some ms ∧ ms ≠ [] ∧ ¬ unexpired ms) ∧
       (isCeloWalletMember memberships Date_now = true
        ↔ membershipState memberships Date_now = MEMBER)).
  { intros (H1 & H2 & H3 & H4 & H5).
    exact (conj H1 (conj H2 (conj H3 (conj H4 (conj H5 Hclock))))). }
  clear Hclock.
  assert (Hmember : isCeloWalletMember memberships Date_now = true
                    ↔ membershipState memberships Date_now = MEMBER).
  { unfold isCeloWalletMember.
    destruct (membershipState memberships Date_now); split; congruence. }
  destruct memberships as [[|m0 ms]|].
  - (* defined and empty *)
    unfold membershipState; simpl.
    repeat split; try congruence; try (intros (ms' & Hms & Hne & _); congruence);
      try (apply Hmember).
  - (* defined and non-empty *)
    pose proof (some_unexpired_spec (m0 :: ms) currentTime) as Hsome.
    fold (unexpired (m0 :: ms)) in Hsome.
    unfold membershipState in *. cbn [length Nat.eqb] in *.
    fold currentTime.
    destruct (existsb _ _) eqn:Hex.
    + assert (Hu : unexpired (m0 :: ms)) by (by apply Hsome).
      repeat split; try congruence; try apply Hmember.
      * intros _. exists (m0 :: ms). by repeat split.
      * intros (ms' & Hms & _ & Hnot). injection Hms as <-. by destruct Hnot.
    + assert (Hu : ¬ unexpired (m0 :: ms)).
      { intros Hu. apply Hsome in Hu. congruence. }
      repeat split; try congruence; try apply Hmember.
      * intros (ms' & Hms & _ & Hyes). injection Hms as <-. by destruct Hu.
      * intros _. exists (m0 :: ms). by repeat split.
  - (* undefined *)
    unfold membershipState; simpl.
    repeat split; try congruence; try (intros (ms' & Hms & _); congruence);
      try apply Hmember.
Qed.

Section Scan.
Context `{Imports} `{Chain}.

Lemma scan_catch_rejected (e : Exn) (st : Store.t) :
  scan_catch (Rejected e) st = (Fulfilled None, setMemberships (λ _, None) st).
Proof. reflexivity. Qed.

Lemma scan_then_undefined memberships (st : Store.t) :
  snd (scan_then memberships None st) = st.
Proof. reflexivity. Qed.

(** C5. When the timestamp lookup of a membership scan fails, the handler
    of the failure sets [memberships] to undefined; the rest of the
    promise chain then receives undefined and, unless the conversion
    helper makes a map out of undefined, leaves it so; and undefined
    memberships are displayed as [ERROR]. *)
Theorem scan_failure_is_error
    (networks : list Network.t) (memberships : option (list MembershipStatus.t))
    (currentAccounts : list StoreAccount.t)
    (accountToScan : option (list StoreAccount.t))
    (st : Store.t) (network : Network.t) (e : Exn) (Date_now : Z) :
  List.find (λ n, bool_decide (DEFAULT_NETWORK = Network.id n)) networks
    = Some network →
  relevantAccounts currentAccounts accountToScan ≠ [] →
  getUnlockTimestamps network
    (map StoreAccount.address (relevantAccounts currentAccounts accountToScan))
    MEMBERSHIP_CONFIG_contractAddresses = Rejected e →
  (∀ expiries, nestedToBigNumberJS None ≠ Fulfilled (Some expiries)) →
  let st' := scanForMemberships networks memberships currentAccounts accountToScan st in
  Store.memberships (snd (scan_catch (Rejected e) st)) = None ∧
  Store.memberships st' = None ∧
  Store.accountRestore st' = Store.accountRestore st ∧
  membershipState (Store.memberships st') Date_now = ERROR.
Proof.
  intros Hnet Hrel Hlookup Hconv st'.
  assert (Hst' : Store.memberships st' = None ∧
                 Store.accountRestore st' = Store.accountRestore st).
  { subst st'. unfold scanForMemberships. rewrite Hnet.
    destruct (relevantAccounts currentAccounts accountToScan) as [|a l] eqn:Hra;
      [congruence|].
    cbn [length Nat.eqb]. rewrite Hlookup, scan_catch_rejected. cbn [then_].
    destruct (nestedToBigNumberJS None) as [[expiries|]|] eqn:Hn.
    - by destruct (Hconv expiries).
    - by rewrite scan_then_undefined.
    - done. }
  destruct Hst' as [Hm Hr]. rewrite Hm. by repeat split.
Qed.

End Scan.

Lemma scan_failure_is_error_witness :
  let st' :=
    @scanForMemberships Sample.imports Sample.unreachable
      [Sample.celo] (Some []) [Sample.alice; Sample.bob] None Sample.emptyStore in
  Store.memberships
    (snd (@scan_catch (Rejected (Error "Network Error")) Sample.emptyStore)) = None ∧
  Store.memberships st' = None ∧
  Store.accountRestore st' = Store.accountRestore Sample.emptyStore ∧
  membershipState (Store.memberships st') 1700000000000 = ERROR.
Proof.
  apply (@scan_failure_is_error Sample.imports Sample.unreachable
           [Sample.celo] (Some []) [Sample.alice; Sample.bob] None Sample.emptyStore
           Sample.celo (Error "Network Error") 1700000000000).
  - reflexivity.
  - discriminate.
  - reflexivity.
  - intros expiries. discriminate.
Defined.

End MembershipProperties.

(** ** The polling effects *)

Module PollingProperties.
Import Lib StoreProvider.

Section Poll.
Context `{Imports} `{Chain}.
Variable getAccountByAddressAndNetworkName :
  TAddress → NetworkId → option StoreAccount.t.
Variable assets : list Asset.t.
Variable networks : list Network.t.
Variable currentAccounts : list StoreAccount.t.

Local Abbreviation onSettled :=
  (onStatusAndTimestamp getAccountByAddressAndNetworkName).
Local Abbreviation poll :=
  (pollPendingTransaction getAccountByAddressAndNetworkName assets networks).
Local Abbreviation senderOf := (senderAccountOf getAccountByAddressAndNetworkName).

Lemma onSettled_unmounted p network receipt txStatus txTimestamp :
  onSettled false p network receipt txStatus txTimestamp = [].
Proof. reflexivity. Qed.

Lemma onSettled_no_status isMounted p network receipt txTimestamp :
  onSettled isMounted p network receipt None txTimestamp = [].
Proof. unfold onStatusAndTimestamp. by destruct isMounted. Qed.

Lemma onSettled_no_timestamp isMounted p network receipt txStatus :
  onSettled isMounted p network receipt txStatus None = [].
Proof. unfold onStatusAndTimestamp. by destruct isMounted, txStatus. Qed.

Lemma onSettled_add isMounted p network receipt txStatus txTimestamp senderAccount tx :
  addNewTransactionToAccount senderAccount tx
    ∈ onSettled isMounted p network receipt txStatus txTimestamp →
  isMounted = true ∧
  ∃ status time,
    txStatus = Some status ∧ txTimestamp = Some time ∧ time ≠ 0 ∧
    senderAccount = senderOf p network receipt ∧
    tx = ITxReceipt.with_status receipt
           (match ITxReceipt.txType p with Some ty => ty | None => STANDARD end)
           time status.
Proof.
  unfold onStatusAndTimestamp.
  destruct isMounted; [|by intros ?%elem_of_nil].
  destruct txStatus as [status|]; [|by intros ?%elem_of_nil].
  destruct txTimestamp as [time|]; [|by intros ?%elem_of_nil].
  cbn [negb orb truthy_number].
  rewrite bool_decide_eq_true_2 by eauto. cbn [negb orb].
  destruct (Z.eqb_spec time 0) as [->|Hne]; cbn [negb]; [by intros ?%elem_of_nil|].
  intros Hin. split; [reflexivity|]. exists status, time.
  apply elem_of_cons in Hin as [Heq|Hin].
  - injection Heq as -> ->. by repeat split.
  - exfalso. destruct (ITxReceipt.txType p) as [[]|];
      repeat (apply elem_of_cons in Hin as [Hin|Hin]; [discriminate|]);
      by apply elem_of_nil in Hin.
Qed.

(** C6. In one round of the status poll, a pending transaction leads to
    [addNewTransactionToAccount] only if the lookup of the transaction,
    of its status and of its block's timestamp have all returned a value,
    and the transaction added carries that timestamp and that status;
    when one of the three lookups returns undefined, no call is made at
    all for that transaction. *)
Theorem poll_updates_only_on_success (isMounted : bool) (p : ITxReceipt.t) :
  let made := poll isMounted p in
  (∀ senderAccount tx,
     addNewTransactionToAccount senderAccount tx ∈ made →
     ∃ network transactionReceipt receipt txStatus txTimestamp,
       ITxReceipt.network p = Some network ∧
       getTransactionByHash network (ITxReceipt.hash p)
         = Fulfilled (Some transactionReceipt) ∧
       fromTxReceiptObj transactionReceipt assets networks = Some receipt ∧
       getTxStatus network (ITxReceipt.hash receipt) = Fulfilled (Some txStatus) ∧
       getTimestampFromBlockNum (ITxReceipt.blockNumber receipt) network
         = Fulfilled (Some txTimestamp) ∧
       senderAccount = senderOf p network receipt ∧
       ITxReceipt.hash tx = ITxReceipt.hash receipt ∧
       ITxReceipt.timestamp tx = txTimestamp ∧
       ITxReceipt.stage tx = txStatus) ∧
  (∀ network,
     ITxReceipt.network p = Some network →
     getTransactionByHash network (ITxReceipt.hash p) = Fulfilled None →
     made = []) ∧
  (∀ network transactionReceipt receipt,
     ITxReceipt.network p = Some network →
     getTransactionByHash network (ITxReceipt.hash p)
       = Fulfilled (Some transactionReceipt) →
     fromTxReceiptObj transactionReceipt assets networks = Some receipt →
     getTxStatus network (ITxReceipt.hash receipt) = Fulfilled None
     ∨ getTimestampFromBlockNum (ITxReceipt.blockNumber receipt) network
       = Fulfilled None →
     made = []).
Proof.
  intros made. subst made. unfold pollPendingTransaction. repeat split.
  - intros senderAccount tx Hin.
    destruct (ITxReceipt.network p) as [network|]; [|by apply elem_of_nil in Hin].
    destruct (getTransactionByHash network (ITxReceipt.hash p))
      as [[transactionReceipt|]|] eqn:Hget;
      try (by apply elem_of_nil in Hin).
    cbn [onTransactionByHash] in Hin.
    destruct (fromTxReceiptObj transactionReceipt assets networks)
      as [receipt|] eqn:Hfrom; [|by apply elem_of_nil in Hin].
    destruct (getTxStatus network (ITxReceipt.hash receipt)) as [txStatus|] eqn:Hst;
      destruct (getTimestampFromBlockNum (ITxReceipt.blockNumber receipt) network)
        as [txTimestamp|] eqn:Hts;
      cbn [Promise_all] in Hin; try (by apply elem_of_nil in Hin).
    apply onSettled_add in Hin as (_ & status & time & -> & -> & _ & -> & ->).
    exists network, transactionReceipt, receipt, status, time.
    by repeat split.
  - intros network -> ->. reflexivity.
  - intros network transactionReceipt receipt -> -> Hfrom Hundef.
    cbn [onTransactionByHash]. rewrite Hfrom.
    destruct Hundef as [-> | Hts].
    + destruct (getTimestampFromBlockNum _ _); cbn [Promise_all]; [|done].
      apply onSettled_no_status.
    + rewrite Hts. destruct (getTxStatus _ _); cbn [Promise_all]; [|done].
      apply onSettled_no_timestamp.
Qed.

Lemma balance_run_unmounted (evs : list BalanceEvent) (e : Effect.t) :
  Effect.isMounted e = false →
  Effect.calls (balance_run currentAccounts evs e) = Effect.calls e.
Proof.
  revert e. induction evs as [|ev evs IH]; intros e He; [reflexivity|].
  unfold balance_run in *. cbn [fold_left]. rewrite IH.
  - destruct ev; cbn; [|reflexivity].
    unfold onBalancesFetched. rewrite He. cbn. apply app_nil_r.
  - by destruct ev.
Qed.

Lemma tx_run_unmounted (evs : list TxEvent) (e : Effect.t) :
  Effect.isMounted e = false →
  Effect.calls (tx_run getAccountByAddressAndNetworkName evs e) = Effect.calls e.
Proof.
  revert e. induction evs as [|ev evs IH]; intros e He; [reflexivity|].
  unfold tx_run in *. cbn [fold_left]. rewrite IH.
  - destruct ev; cbn; [|reflexivity].
    rewrite He, onSettled_unmounted. apply app_nil_r.
  - by destruct ev.
Qed.

(** C8. Once the cleanup of an effect has cleared its mounted-flag, the
    completions that arrive afterwards make no call: neither
    [updateAccountsBalances] (balance poll) nor
    [addNewTransactionToAccount] (status poll); the calls made are those
    made before the cleanup. *)
Theorem no_update_after_cleanup :
  (∀ accountsWithBalances,
     onBalancesFetched currentAccounts false accountsWithBalances = []) ∧
  (∀ p network receipt txStatus txTimestamp,
     onSettled false p network receipt txStatus txTimestamp = []) ∧
  (∀ before after,
     Effect.calls
       (balance_run currentAccounts (before ++ BalanceCleanup :: after) Effect.start)
     = Effect.calls (balance_run currentAccounts before Effect.start)) ∧
  (∀ before after,
     Effect.calls
       (tx_run getAccountByAddressAndNetworkName (before ++ TxCleanup :: after)
          Effect.start)
     = Effect.calls (tx_run getAccountByAddressAndNetworkName before Effect.start)).
Proof.
  split; [reflexivity|]. split; [apply onSettled_unmounted|]. split.
  - intros before after.
    replace (balance_run currentAccounts (before ++ BalanceCleanup :: after) Effect.start)
      with (balance_run currentAccounts after
              (Effect.cleanup (balance_run currentAccounts before Effect.start)))
      by (unfold balance_run; by rewrite fold_left_app).
    by rewrite balance_run_unmounted.
  - intros before after.
    replace (tx_run getAccountByAddressAndNetworkName (before ++ TxCleanup :: after)
               Effect.start)
      with (tx_run getAccountByAddressAndNetworkName after
              (Effect.cleanup
                 (tx_run getAccountByAddressAndNetworkName before Effect.start)))
      by (unfold tx_run; by rewrite fold_left_app).
    by rewrite tx_run_unmounted.
Qed.

End Poll.

(** On a chain where the transaction is mined, the poll does add it. *)
Example poll_mined :
  @pollPendingTransaction Sample.imports Sample.mined Sample.noAccount []
    [Sample.celo] true Sample.pendingTx
  = [ addNewTransactionToAccount (Some Sample.alice)
        {| ITxReceipt.hash := "0xhash"; ITxReceipt.from := "0xsender";
           ITxReceipt.blockNumber := Some 7; ITxReceipt.network := Some Sample.celo;
           ITxReceipt.senderAccount := None;
           ITxReceipt.txType := Some PURCHASE_MEMBERSHIP;
           ITxReceipt.timestamp := 1600000000; ITxReceipt.stage := SUCCESS |};
      scanForMemberships_call [Some Sample.alice] ].
Proof. reflexivity. Qed.

(** A completion before the cleanup updates the balances, the same
    completion after it does not. *)
Example balance_cleanup_run :
  Effect.calls
    (@balance_run Sample.imports [Sample.alice]
       [BalancesFetched [Some Sample.bob]; BalanceCleanup;
        BalancesFetched [Some Sample.bob]] Effect.start)
  = [updateAccountsBalances [Some Sample.bob]].
Proof. reflexivity. Qed.

End PollingProperties.

(** ** The asset API *)

Module ApiProperties.
Import CeloWalletApiService.

(** C4. When the request for the asset manifest is rejected, [getAssets]
    does not reject: it logs the failure and resolves with the empty
    mapping; when the request succeeds it resolves with the data of the
    response, unchanged, and logs nothing. *)
Theorem getAssets_swallows_failure {ExtendedAsset : Type}
    (service : AxiosInstance (gmap string ExtendedAsset)) (console : Console) :
  (∀ e, get service "assets.json" = Rejected e →
        getAssets service console
        = (Fulfilled ∅,
           (console ++ [("[CeloWalletApiService]: Fetching assets failed: ", e)])%list)) ∧
  (∀ response, get service "assets.json" = Fulfilled response →
        getAssets service console = (Fulfilled (AxiosResponse.data response), console)).
Proof.
  split.
  - intros e He. unfold getAssets, try_catch, await, mbind, async_bind. by rewrite He.
  - intros response Hr. unfold getAssets, try_catch, await, mbind, async_bind.
    by rewrite Hr.
Qed.

Example getAssets_failing :
  getAssets Sample.failingService []
  = (Fulfilled ∅,
     [("[CeloWalletApiService]: Fetching assets failed: ", Error "Network Error")]).
Proof. reflexivity. Qed.

Example getAssets_serving :
  getAssets Sample.servingService [] = (Fulfilled Sample.manifest, []).
Proof. reflexivity. Qed.

End ApiProperties.

(** ** The account cache and [addAccount] *)

Module AccountProperties.
Import Lib StoreProvider.

Lemma of_raw_rest (account : IAccount.t) :
  IAccount.of_raw (IAccount.rest account) (IAccount.uuid account) = account.
Proof. by destruct account. Qed.

(** The slot read by [accountRestore[accountId]]. *)
Lemma restore_slot_after_delete dashboardAccounts (account : IAccount.t) (st : Store.t) :
  Store.accountRestore (deleteAccountFromCache dashboardAccounts account st)
    !! IAccount.uuid account = Some (Some account).
Proof. unfold deleteAccountFromCache. cbn. apply lookup_insert_eq. Qed.

Lemma restore_undefined accountRestore (accountId : TUuid) (st : Store.t) :
  mjoin (accountRestore !! accountId) = None →
  restoreDeletedAccount accountRestore accountId st
  = Throw (Error "Unable to restore account! No account with id specified.") st.
Proof. intros Hslot. unfold restoreDeletedAccount. by rewrite Hslot. Qed.

Lemma restore_defined accountRestore (accountId : TUuid) (account : IAccount.t)
    (st : Store.t) :
  accountRestore !! accountId = Some (Some account) →
  restoreDeletedAccount accountRestore accountId st
  = Normal tt
      (setAccountRestore (λ prevState, <[IAccount.uuid account := None]> prevState)
         (call (createAccountWithID (IAccount.rest account) (IAccount.uuid account)) st)).
Proof. intros Hslot. unfold restoreDeletedAccount. by rewrite Hslot. Qed.

Lemma filed_by_uuid_empty : filed_by_uuid ∅.
Proof. intros k account Hk. by rewrite lookup_empty in Hk. Qed.

Lemma filed_by_uuid_delete dashboardAccounts (account : IAccount.t) (st : Store.t) :
  filed_by_uuid (Store.accountRestore st) →
  filed_by_uuid
    (Store.accountRestore (deleteAccountFromCache dashboardAccounts account st)).
Proof.
  intros Hst k a. unfold deleteAccountFromCache. cbn.
  destruct (decide (IAccount.uuid account = k)) as [<-|Hne].
  - rewrite lookup_insert_eq. by intros [= <-].
  - rewrite lookup_insert_ne by done. apply Hst.
Qed.

Lemma filed_by_uuid_restore accountRestore (accountId : TUuid) (st st' : Store.t) :
  filed_by_uuid (Store.accountRestore st) →
  restoreDeletedAccount accountRestore accountId st = Normal tt st' →
  filed_by_uuid (Store.accountRestore st').
Proof.
  intros Hst. unfold restoreDeletedAccount.
  destruct (mjoin (accountRestore !! accountId)) as [account|]; cbn; [|done].
  intros [= <-] k a. cbn.
  destruct (decide (IAccount.uuid account = k)) as [<-|Hne].
  - by rewrite lookup_insert_eq.
  - rewrite lookup_insert_ne by done. apply Hst.
Qed.

(** C9. After [deleteAccountFromCache account] and the next render,
    [restoreDeletedAccount] with the account's uuid asks for the account
    to be created again under the same uuid with the same data, and
    leaves its restore slot undefined, the other slots and the
    memberships as they were; with an id whose slot holds no account it
    throws and leaves the store as it was. *)
Theorem restore_after_delete (dashboardAccounts : list TUuid) (account : IAccount.t)
    (st : Store.t) :
  let st1 := deleteAccountFromCache dashboardAccounts account st in
  (∃ st2,
     restoreDeletedAccount (Store.accountRestore st1) (IAccount.uuid account) st1
       = Normal tt st2 ∧
     Store.calls st2
       = (Store.calls st1
          ++ [createAccountWithID (IAccount.rest account) (IAccount.uuid account)])%list ∧
     IAccount.of_raw (IAccount.rest account) (IAccount.uuid account) = account ∧
     mjoin (Store.accountRestore st2 !! IAccount.uuid account) = None ∧
     (∀ k, k ≠ IAccount.uuid account →
           Store.accountRestore st2 !! k = Store.accountRestore st !! k) ∧
     Store.memberships st2 = Store.memberships st1) ∧
  (∀ accountRestore accountId st0,
     mjoin (accountRestore !! accountId) = None →
     restoreDeletedAccount accountRestore accountId st0
     = Throw (Error "Unable to restore account! No account with id specified.") st0).
Proof.
  intros st1. split; [|apply restore_undefined].
  eexists. split.
  { apply restore_defined. apply restore_slot_after_delete. }
  cbn. repeat split.
  - apply of_raw_rest.
  - by rewrite lookup_insert_eq.
  - intros k Hk. by rewrite !lookup_insert_ne.
Qed.

(** The same for any cache built by deletions and restorations: a slot
    that holds an account gives that account back under the id asked. *)
Lemma restore_filed accountRestore (accountId : TUuid) (account : IAccount.t)
    (st : Store.t) :
  filed_by_uuid accountRestore →
  accountRestore !! accountId = Some (Some account) →
  ∃ st',
    restoreDeletedAccount accountRestore accountId st = Normal tt st' ∧
    Store.calls st'
      = (Store.calls st ++ [createAccountWithID (IAccount.rest account) accountId])%list ∧
    IAccount.of_raw (IAccount.rest account) accountId = account ∧
    mjoin (Store.accountRestore st' !! accountId) = None.
Proof.
  intros Hfiled Hslot. pose proof (Hfiled _ _ Hslot) as Huuid.
  eexists. split; [by apply restore_defined|].
  cbn. rewrite Huuid. repeat split.
  - rewrite <- Huuid. apply of_raw_rest.
  - by rewrite lookup_insert_eq.
Qed.

Example restore_unknown_throws :
  restoreDeletedAccount ∅ "Celo:0xalice" Sample.emptyStore
  = Throw (Error "Unable to restore account! No account with id specified.")
      Sample.emptyStore.
Proof. reflexivity. Qed.

Section AddAccount.
Context `{Imports}.
Variable getAccountByAddressAndNetworkName :
  TAddress → NetworkId → option StoreAccount.t.
Variable getContactByAddressAndNetworkId :
  TAddress → NetworkId → option ExtendedAddressBook.t.
Variable assets : list Asset.t.
Variable networks : list Network.t.
Variable contacts : list ExtendedAddressBook.t.
Variable Date_now : Z.

Local Abbreviation add :=
  (addAccount getAccountByAddressAndNetworkName getContactByAddressAndNetworkId
     assets networks contacts Date_now).

(** C10. [addAccount] returns undefined and makes no call when the
    network id is unknown, the address is empty, or an account with that
    address on that network exists; otherwise it returns the new raw
    account, whose only asset entry is the default asset of the network
    with balance '0' and whose transactions are empty, and it asks for
    that account to be created. *)
Theorem addAccount_result (networkId : NetworkId) (address : TAddress)
    (accountType : option WalletId) (dPath : string) (st : Store.t) :
  let refused :=
    getNetworkById networkId networks = None ∨ address = ""
    ∨ is_Some (getAccountByAddressAndNetworkName address networkId) in
  (refused → add networkId address accountType dPath st = (None, st)) ∧
  (¬ refused →
   ∃ network account contactCall,
     getNetworkById networkId networks = Some network ∧
     add networkId address accountType dPath st
     = (Some account,
        call (createAccountWithID account (generateAccountUUID networkId address))
          (call contactCall st)) ∧
     IRawAccount.assets account
     = [ {| AssetBalanceObject.uuid :=
              Asset.uuid (getNewDefaultAssetTemplateByNetwork assets network);
            AssetBalanceObject.balance := "0";
            AssetBalanceObject.mtime := Date_now |} ] ∧
     IRawAccount.transactions account = [] ∧
     IRawAccount.address account = address ∧
     IRawAccount.networkId account = networkId ∧
     IRawAccount.dPath account = dPath).
Proof.
  intros refused. subst refused. unfold addAccount, truthy_string. split.
  - intros [Hnet | [-> | Hacc]].
    + by rewrite Hnet.
    + destruct (getNetworkById networkId networks); [|done].
      by rewrite bool_decide_eq_true_2.
    + destruct (getNetworkById networkId networks); [|done].
      rewrite (bool_decide_eq_true_2 _ Hacc). by rewrite orb_true_r.
  - intros Hok.
    destruct (getNetworkById networkId networks) as [network|] eqn:Hnet;
      [|exfalso; apply Hok; by left].
    rewrite bool_decide_eq_false_2 by (intros ->; apply Hok; right; by left).
    rewrite bool_decide_eq_false_2 by (intros Hacc; apply Hok; right; by right).
    cbn [negb orb]. exists network. cbn.
    destruct (getContactByAddressAndNetworkId address networkId) as [existing|];
      eexists _, _; (split; [reflexivity|]); split; reflexivity || by repeat split.
Qed.

End AddAccount.

Example addAccount_new :
  fst (@addAccount Sample.imports Sample.noAccount Sample.noContact [] [Sample.celo] []
         1600000000000 "Celo" "0xcarol" (Some "LEDGER") "m/44'/52752'/0'/0/0"
         Sample.emptyStore)
  = Some {| IRawAccount.address := "0xcarol"; IRawAccount.networkId := "Celo";
            IRawAccount.wallet := Some "LEDGER";
            IRawAccount.dPath := "m/44'/52752'/0'/0/0";
            IRawAccount.assets :=
              [ {| AssetBalanceObject.uuid := "uuid-celo";
                   AssetBalanceObject.balance := "0";
                   AssetBalanceObject.mtime := 1600000000000 |} ];
            IRawAccount.transactions := []; IRawAccount.favorite := false;
            IRawAccount.mtime := 0 |}.
Proof. reflexivity. Qed.

Example addAccount_unknown_network :
  @addAccount Sample.imports Sample.noAccount Sample.noContact [] [Sample.celo] []
    1600000000000 "Ethereum" "0xcarol" (Some "LEDGER") "m/44'/60'/0'/0/0"
    Sample.emptyStore
  = (None, Sample.emptyStore).
Proof. reflexivity. Qed.

End AccountProperties.

(** ** Totals and the wallet breakdown *)

Module TotalsProperties.
Import Lib StoreProvider TotalsSpec.

Local Abbreviation uuid := StoreAsset.uuid.
Local Abbreviation wb := StoreAsset.with_balance.

Lemma with_balance_id (a : StoreAsset.t) : wb a (StoreAsset.balance a) = a.
Proof. by destruct a. Qed.

Lemma with_balance_twice (a : StoreAsset.t) (b b' : Z) : wb (wb a b) b' = wb a b'.
Proof. reflexivity. Qed.

(** *** Dictionaries whose entries are filed by uuid *)

Local Abbreviation entries f xs :=
  (map (λ x : StoreAsset.t, (uuid x, f x : StoreAsset.t)) xs).

Lemma dict_set_fresh (f : StoreAsset.t → StoreAsset.t) (xs : list StoreAsset.t)
    (k : string) (v : StoreAsset.t) :
  k ∉ map uuid xs →
  dict_get (entries f xs) k = None ∧
  dict_set (entries f xs) k v = (entries f xs ++ [(k, v)])%list.
Proof.
  induction xs as [|x xs IH]; intros Hk; [done|].
  cbn [map dict_get dict_set app] in *.
  rewrite not_elem_of_cons in Hk. destruct Hk as [Hne Hk].
  destruct (decide (uuid x = k)) as [Heq|_]; [by destruct Hne|].
  destruct (IH Hk) as [Hget Hset]. split; [exact Hget|]. by rewrite Hset.
Qed.

Lemma dict_update (f g : StoreAsset.t → StoreAsset.t) (xs : list StoreAsset.t)
    (k : string) :
  NoDup (map uuid xs) →
  k ∈ map uuid xs →
  ∃ prev,
    dict_get (entries f xs) k = Some prev ∧
    dict_set (entries f xs) k (g prev)
    = map (λ x, (uuid x, if decide (uuid x = k) then g (f x) else f x)) xs.
Proof.
  induction xs as [|x xs IH]; intros Hnd Hk; [by apply elem_of_nil in Hk|].
  cbn [map] in *. apply NoDup_cons in Hnd as [Hx Hnd].
  cbn [dict_get dict_set].
  destruct (decide (uuid x = k)) as [<-|Hne].
  - exists (f x). split; [done|]. f_equal.
    apply map_ext_in. intros y Hy.
    rewrite decide_False; [done|]. intros Heq. apply Hx. rewrite <- Heq.
    apply list_elem_of_In in Hy. by apply list_elem_of_fmap_2.
  - apply elem_of_cons in Hk as [Hk|Hk]; [congruence|].
    destruct (IH Hnd Hk) as (prev & Hget & Hset).
    exists prev. split; [done|]. by rewrite Hset.
Qed.

(** *** The distinct assets and their balances *)

Local Abbreviation other_than u :=
  (λ b : StoreAsset.t, negb (bool_decide (uuid b = u))).

Lemma in_uuids_filter (u k : string) (xs : list StoreAsset.t) :
  In k (map uuid (List.filter (other_than u) xs)) ↔ k ≠ u ∧ In k (map uuid xs).
Proof.
  rewrite !in_map_iff. split.
  - intros (x & <- & Hx). apply filter_In in Hx as [Hx Hne].
    apply negb_true_iff, bool_decide_eq_false in Hne. eauto.
  - intros (Hne & x & <- & Hx). exists x. split; [done|].
    apply filter_In. split; [done|]. by apply negb_true_iff, bool_decide_eq_false.
Qed.

Lemma NoDup_uuids_filter (P : StoreAsset.t → bool) (xs : list StoreAsset.t) :
  NoDup (map uuid xs) → NoDup (map uuid (List.filter P xs)).
Proof.
  induction xs as [|x xs IH]; cbn [map List.filter]; [done|].
  intros [Hx Hnd]%NoDup_cons. destruct (P x); cbn [map]; [|by apply IH].
  apply NoDup_cons. split; [|by apply IH].
  intros Hin. apply Hx. apply list_elem_of_In in Hin. apply list_elem_of_In.
  apply in_map_iff in Hin as (y & Hy & Hin). apply filter_In in Hin as [Hin _].
  apply in_map_iff. eauto.
Qed.

Lemma in_uuids_distinct (k : string) (l : list StoreAsset.t) :
  In k (map uuid (distinctAssets l)) ↔ In k (map uuid l).
Proof.
  induction l as [|x l IH]; [done|].
  cbn [distinctAssets map In]. rewrite in_uuids_filter, IH.
  destruct (decide (k = uuid x)) as [->|Hne]; intuition.
Qed.

Lemma NoDup_uuids_distinct (l : list StoreAsset.t) :
  NoDup (map uuid (distinctAssets l)).
Proof.
  induction l as [|x l IH]; [constructor|].
  cbn [distinctAssets map]. apply NoDup_cons. split.
  - intros Hin%list_elem_of_In%in_uuids_filter. by destruct Hin.
  - by apply NoDup_uuids_filter.
Qed.

Lemma distinctAssets_snoc (l : list StoreAsset.t) (a : StoreAsset.t) :
  distinctAssets (l ++ [a])
  = (distinctAssets l ++ if bool_decide (uuid a ∈ map uuid l) then [] else [a])%list.
Proof.
  induction l as [|x l IH]; [done|].
  cbn [app distinctAssets map]. rewrite IH, List.filter_app. f_equal. f_equal.
  destruct (decide (uuid a = uuid x)) as [Heq|Hne].
  - rewrite (bool_decide_eq_true_2 (uuid a ∈ uuid x :: map uuid l))
      by (rewrite Heq; apply elem_of_cons; by left).
    destruct (bool_decide _); [done|]. cbn [List.filter].
    by rewrite bool_decide_eq_true_2.
  - rewrite (bool_decide_ext (uuid a ∈ uuid x :: map uuid l) (uuid a ∈ map uuid l))
      by (rewrite elem_of_cons; intuition).
    destruct (bool_decide _); [done|]. cbn [List.filter].
    by rewrite bool_decide_eq_false_2.
Qed.

Lemma sum_app (xs ys : list Z) :
  foldr Z.add 0 (xs ++ ys) = foldr Z.add 0 xs + foldr Z.add 0 ys.
Proof. induction xs as [|x xs IH]; cbn [app foldr]; lia. Qed.

Lemma balanceOf_snoc (k : string) (l : list StoreAsset.t) (a : StoreAsset.t) :
  balanceOf k (l ++ [a])
  = balanceOf k l + (if decide (uuid a = k) then StoreAsset.balance a else 0).
Proof.
  unfold balanceOf. rewrite List.filter_app, map_app, sum_app. f_equal.
  cbn [List.filter]. destruct (decide (uuid a = k)) as [Heq|Hne].
  - rewrite bool_decide_eq_true_2 by done. cbn. lia.
  - by rewrite bool_decide_eq_false_2.
Qed.

Lemma balanceOf_absent (k : string) (l : list StoreAsset.t) :
  k ∉ map uuid l → balanceOf k l = 0.
Proof.
  unfold balanceOf. induction l as [|x l IH]; [done|].
  cbn [map List.filter]. rewrite not_elem_of_cons. intros [Hne Hk].
  rewrite bool_decide_eq_false_2 by done. by apply IH.
Qed.

(** *** The dictionary built by [getTotalByAsset] *)

Lemma getTotalByAsset_entries (l : list StoreAsset.t) :
  getTotalByAsset l
  = entries (λ x, wb x (balanceOf (uuid x) l)) (distinctAssets l).
Proof.
  induction l as [|a l IH] using rev_ind; [done|].
  unfold getTotalByAsset in *. rewrite fold_left_app. cbn [fold_left]. rewrite IH.
  rewrite distinctAssets_snoc.
  destruct (decide (uuid a ∈ map uuid l)) as [Hin|Hnin].
  - rewrite bool_decide_eq_true_2 by done. rewrite app_nil_r.
    destruct (dict_update (λ x, wb x (balanceOf (uuid x) l))
                (λ prev, wb prev (StoreAsset.balance prev + StoreAsset.balance a))
                (distinctAssets l) (uuid a)) as (prev & Hget & Hset).
    + apply NoDup_uuids_distinct.
    + by apply list_elem_of_In, in_uuids_distinct, list_elem_of_In.
    + cbn beta in Hset. rewrite Hget, Hset. apply map_ext. intros x. f_equal.
      rewrite balanceOf_snoc.
      destruct (decide (uuid x = uuid a)) as [Heq|Hne].
      * rewrite decide_True by done. reflexivity.
      * rewrite decide_False by congruence. by rewrite Z.add_0_r.
  - rewrite bool_decide_eq_false_2 by done.
    assert (Hfresh : uuid a ∉ map uuid (distinctAssets l)).
    { intros Hin. apply Hnin.
      by apply list_elem_of_In, in_uuids_distinct, list_elem_of_In. }
    destruct (dict_set_fresh (λ x, wb x (balanceOf (uuid x) l)) (distinctAssets l)
                (uuid a) a Hfresh) as [Hget Hset].
    rewrite Hget, Hset, map_app. f_equal.
    + apply map_ext_in. intros x Hx. f_equal. rewrite balanceOf_snoc.
      rewrite decide_False; [by rewrite Z.add_0_r|].
      intros Heq. apply Hfresh. rewrite Heq.
      apply list_elem_of_In. by apply in_map.
    + cbn [map]. rewrite balanceOf_snoc, decide_True by done.
      rewrite balanceOf_absent by done. cbn [Z.add]. by rewrite with_balance_id.
Qed.

(** The totals computed by the store are the per-asset totals of the
    spec. *)
Lemma totals_perAssetTotals (accounts selectedAccounts : list StoreAccount.t) :
  totals accounts (Some selectedAccounts) = perAssetTotals selectedAccounts.
Proof.
  unfold totals, perAssetTotals, state_assets, Object_values.
  rewrite getTotalByAsset_entries, map_map. reflexivity.
Qed.

Lemma uuids_perAssetTotals (selectedAccounts : list StoreAccount.t) :
  map uuid (perAssetTotals selectedAccounts)
  = map uuid (distinctAssets (flat_map StoreAccount.assets selectedAccounts)).
Proof. unfold perAssetTotals. by rewrite map_map. Qed.

(** *** Sums of fiat values *)


Section Fiat.
Context `{Imports}.


End Fiat.

Example totals_sample :
  totals [] (Some [Sample.alice; Sample.bob]) = [Sample.CELO 6; Sample.cUSD 42].
Proof. reflexivity. Qed.

Example totalFiat_sample :
  @totalFiat Sample.imports [] (Some [Sample.alice; Sample.bob])
    (λ asset, if bool_decide (uuid asset = "uuid-celo") then Some (2 # 1) else None)
  = Finite (54 # 1).
Proof. vm_compute. reflexivity. Qed.

(** Sums are rounded to doubles: beyond [2 ** 53] adding 1 can be lost,
    and 0.1 + 0.2 is not 0.3. *)
Example number_add_rounds :
  number_add (Finite 9007199254740992) (Finite 1) = Finite 9007199254740992 ∧
  number_add (Finite 9007199254740992) (Finite 3) = Finite 9007199254740996 ∧
  number_add (Finite (3602879701896397 # 36028797018963968))
    (Finite (3602879701896397 # 18014398509481984))
  = Finite (1351079888211149 # 4503599627370496) ∧
  to_double (3 # 10) = Finite (5404319552844595 # 18014398509481984).
Proof. vm_compute. repeat split. Qed.

Example totalFiat_rounds :
  @totalFiat Sample.imports []
    (Some [Sample.storeAccount "0xwhale" [Sample.CELO 9007199254740992; Sample.cUSD 1]])
    (λ _, None)
  = Finite 9007199254740992.
Proof. vm_compute. reflexivity. Qed.

(** *** Sorting by descending key *)

Section Sort.
Context {A : Type}.

Lemma sort_insert_perm (compareFn : A → A → Q) (a : A) (l : list A) :
  Permutation (sort_insert compareFn a l) (a :: l).
Proof.
  induction l as [|b l IH]; cbn [sort_insert]; [reflexivity|].
  destruct (Qle_bool _ _); [reflexivity|].
  rewrite IH. apply perm_swap.
Qed.

Lemma Array_sort_perm (compareFn : A → A → Q) (l : list A) :
  Permutation (Array_sort compareFn l) l.
Proof.
  induction l as [|a l IH]; cbn [Array_sort]; [reflexivity|].
  rewrite sort_insert_perm. by constructor.
Qed.

Variable key : A → Q.
Local Abbreviation descending := (λ a b : A, (key b - key a)%Q).
Local Abbreviation not_below := (λ a b : A, (key b <= key a)%Q).

Lemma descending_le (a b : A) :
  Qle_bool (descending a b) 0 = true ↔ (key b <= key a)%Q.
Proof. rewrite Qle_bool_iff. split; intros; lra. Qed.

Lemma sort_insert_sorted (a : A) (l : list A) :
  StronglySorted not_below l → StronglySorted not_below (sort_insert descending a l).
Proof.
  induction 1 as [|b l Hl IH Hb]; cbn [sort_insert].
  - repeat constructor.
  - destruct (Qle_bool _ _) eqn:Hle.
    + apply descending_le in Hle. constructor; [by constructor|].
      constructor; [done|]. eapply Forall_impl; [exact Hb|].
      cbn. intros c Hc. lra.
    + constructor; [exact IH|].
      apply (Permutation_Forall (Permutation_sym (sort_insert_perm _ a l))).
      constructor; [|done].
      destruct (Qlt_le_dec (key b) (key a)) as [Hlt|Hge]; [|done].
      assert (Qle_bool (descending a b) 0 = true) by (apply descending_le; lra).
      congruence.
Qed.

Lemma Array_sort_sorted (l : list A) :
  StronglySorted not_below (Array_sort descending l).
Proof.
  induction l as [|a l IH]; cbn [Array_sort]; [constructor|].
  by apply sort_insert_sorted.
Qed.

End Sort.

Section Breakdown.
Context `{Imports}.
Import WalletBreakdown.

Lemma isExcludedAsset_spec (excluded : list TUuid) (asset : StoreAsset.t) :
  isExcludedAsset excluded asset = true ↔ uuid asset ∉ excluded.
Proof.
  unfold isExcludedAsset. rewrite negb_true_iff, bool_decide_eq_false. reflexivity.
Qed.

(** C2. The balance list has no entry for an asset that the settings
    exclude; it has exactly one entry for each other asset held by the
    current accounts, made from that asset's total; and its entries are in
    descending order of fiat value. *)
Theorem balances_excluded_and_sorted
    (accounts currentAccounts : list StoreAccount.t)
    (settings_excludedAssets : list TUuid)
    (getAssetRate : StoreAsset.t → option Q) :
  let shown := balances accounts currentAccounts settings_excludedAssets getAssetRate in
  (∀ b, b ∈ shown → Balance.uuid b ∉ settings_excludedAssets) ∧
  StronglySorted (λ a b, (Balance.fiatValue b <= Balance.fiatValue a)%Q) shown ∧
  Permutation shown
    (map (toBalance currentAccounts getAssetRate)
       (List.filter (λ total, negb (bool_decide (uuid total ∈ settings_excludedAssets)))
          (TotalsSpec.perAssetTotals currentAccounts))).
Proof.
  intros shown. subst shown. unfold balances.
  rewrite totals_perAssetTotals.
  assert (Hperm := Array_sort_perm
            (λ a b, (Balance.fiatValue b - Balance.fiatValue a)%Q)
            (map (toBalance currentAccounts getAssetRate)
               (List.filter (isExcludedAsset settings_excludedAssets)
                  (TotalsSpec.perAssetTotals currentAccounts)))).
  split; [|split].
  - intros b Hb. rewrite Hperm in Hb.
    apply list_elem_of_In, in_map_iff in Hb as (total & <- & Hin).
    apply filter_In in Hin as [_ Hkept]. by apply isExcludedAsset_spec.
  - apply (Array_sort_sorted Balance.fiatValue).
  - exact Hperm.
Qed.

End Breakdown.

(** With cUSD excluded only CELO is shown; with nothing excluded the
    larger fiat value comes first. *)
Example balances_sample_excluded :
  map Balance.ticker
    (@WalletBreakdown.balances Sample.imports [] [Sample.alice; Sample.bob]
       ["uuid-cusd"] (λ _, None))
  = ["CELO"].
Proof. reflexivity. Qed.

Example balances_sample_sorted :
  map Balance.ticker
    (@WalletBreakdown.balances Sample.imports [] [Sample.alice; Sample.bob]
       [] (λ _, None))
  = ["cUSD"; "CELO"].
Proof. reflexivity. Qed.

End TotalsProperties.

(* ===================================================================== *)
(** * Part III: further properties of the same code                      *)
(* ===================================================================== *)

(** ** Lists without repeated keys *)

Module UniqProperties.
Import Lib.

Section Uniq.
Context {A : Type} (f : A → string).

Lemma in_uniqBy_from (seen : list string) (l : list A) (x : A) :
  x ∈ uniqBy_from f seen l → x ∈ l ∧ f x ∉ seen.
Proof.
  revert seen. induction l as [|y l IH]; intros seen; cbn [uniqBy_from].
  - by intros ?%elem_of_nil.
  - destruct (bool_decide (f y ∈ seen)) eqn:Hy.
    + intros [Hx Hs]%IH. split; [by right|done].
    + apply bool_decide_eq_false in Hy.
      intros [->|[Hx Hs]%IH]%elem_of_cons; [split; [by left|done]|].
      split; [by right|]. intros Hin. apply Hs. by right.
Qed.

Lemma keys_uniqBy_from (seen : list string) (l : list A) (k : string) :
  k ∈ map f (uniqBy_from f seen l) ↔ k ∈ map f l ∧ k ∉ seen.
Proof.
  revert seen. induction l as [|y l IH]; intros seen; cbn [uniqBy_from map].
  - split; [by intros ?%elem_of_nil|by intros [?%elem_of_nil _]].
  - destruct (bool_decide (f y ∈ seen)) eqn:Hy.
    + apply bool_decide_eq_true in Hy. rewrite IH, elem_of_cons.
      split; [intuition|]. intros [[->|Hk] Hs]; [done|done].
    + apply bool_decide_eq_false in Hy. cbn [map].
      rewrite !elem_of_cons, IH, not_elem_of_cons.
      destruct (decide (k = f y)) as [->|Hne]; intuition.
Qed.

Lemma NoDup_uniqBy_from (seen : list string) (l : list A) :
  NoDup (map f (uniqBy_from f seen l)).
Proof.
  revert seen. induction l as [|y l IH]; intros seen; cbn [uniqBy_from].
  - constructor.
  - destruct (bool_decide (f y ∈ seen)); [apply IH|].
    cbn [map]. apply NoDup_cons. split; [|apply IH].
    intros [_ Hs]%keys_uniqBy_from. apply Hs. by left.
Qed.

Lemma find_uniqBy_from (seen : list string) (l : list A) (k : string) :
  k ∉ seen →
  List.find (λ x, bool_decide (f x = k)) (uniqBy_from f seen l)
  = List.find (λ x, bool_decide (f x = k)) l.
Proof.
  revert seen. induction l as [|y l IH]; intros seen Hk; cbn [uniqBy_from]; [done|].
  destruct (bool_decide (f y ∈ seen)) eqn:Hy.
  - apply bool_decide_eq_true in Hy. cbn [List.find].
    rewrite bool_decide_eq_false_2 by (intros <-; done). by apply IH.
  - cbn [List.find]. destruct (bool_decide (f y = k)) eqn:Hyk; [done|].
    apply bool_decide_eq_false in Hyk. apply IH.
    rewrite not_elem_of_cons. split; [congruence|done].
Qed.

Lemma find_append (p : A → bool) (l1 l2 : list A) :
  List.find p (l1 ++ l2)
  = match List.find p l1 with Some x => Some x | None => List.find p l2 end.
Proof.
  induction l1 as [|y l1 IH]; cbn [app List.find]; [done|]. by destruct (p y).
Qed.

End Uniq.
End UniqProperties.

(** ** The membership scan *)

Module ScanProperties.
Import Lib StoreProvider UniqProperties.

Section Scan.
Context `{Imports} `{Chain}.
Variable networks : list Network.t.
Variable memberships : option (list MembershipStatus.t).
Variable currentAccounts : list StoreAccount.t.

Local Abbreviation scan := (scanForMemberships networks memberships currentAccounts).
Local Abbreviation relevant := (relevantAccounts currentAccounts).
Local Abbreviation by_address a :=
  (λ m : MembershipStatus.t, bool_decide (MembershipStatus.address m = a)).

(** X4. Every membership status read off the looked-up timestamps has at
    least one membership, each with an expiry greater than zero that is
    the timestamp found for some contract under that address, typed by
    [MEMBERSHIP_CONTRACTS]. *)
Theorem newMemberships_positive (expiries : Dict (Dict Z)) (m : MembershipStatus.t) :
  m ∈ newMemberships expiries →
  MembershipStatus.memberships m ≠ [] ∧
  ∃ byContract,
    (MembershipStatus.address m, byContract) ∈ expiries ∧
    ∀ e, e ∈ MembershipStatus.memberships m →
         0 < Membership.expiry e ∧
         ∃ contract,
           (contract, Membership.expiry e) ∈ byContract ∧
           Membership.type e = MEMBERSHIP_CONTRACTS contract.
Proof.
  unfold newMemberships. rewrite list_elem_of_In, filter_In, in_map_iff.
  intros [([address byContract] & <- & Hin) Hlen]. cbn in *. split.
  - intros Hnil. rewrite Hnil in Hlen. discriminate.
  - exists byContract. split; [by apply list_elem_of_In|].
    intros e. rewrite list_elem_of_In, in_map_iff.
    intros ([contract expiry] & <- & Hc). apply filter_In in Hc as [Hc Hpos].
    cbn. split; [by apply Z.ltb_lt|]. exists contract.
    split; [by apply list_elem_of_In|done].
Qed.

(** X3. When the lookup and the conversion of a scan succeed, the
    memberships become the statuses just read followed by those of the
    render that started the scan, one per address: looking an address up
    gives the status just read if there is one, the previous one
    otherwise.  The rest of the store is untouched, and the state is no
    longer undefined. *)
Theorem scan_success_merges (accountToScan : option (list StoreAccount.t))
    (st : Store.t) (network : Network.t) (timestamps expiries : Dict (Dict Z)) :
  List.find (λ n, bool_decide (DEFAULT_NETWORK = Network.id n)) networks
    = Some network →
  relevant accountToScan ≠ [] →
  getUnlockTimestamps network (map StoreAccount.address (relevant accountToScan))
    MEMBERSHIP_CONFIG_contractAddresses = Fulfilled timestamps →
  nestedToBigNumberJS (Some timestamps) = Fulfilled (Some expiries) →
  ∃ merged,
    scan accountToScan st
    = {| Store.accountRestore := Store.accountRestore st;
         Store.memberships := Some merged;
         Store.calls := Store.calls st |} ∧
    NoDup (map MembershipStatus.address merged) ∧
    ∀ a, List.find (by_address a) merged
         = match List.find (by_address a) (newMemberships expiries) with
           | Some m => Some m
           | None =>
               List.find (by_address a)
                 (match memberships with Some ms => ms | None => [] end)
           end.
Proof.
  intros Hnet Hrel Hlookup Hconv.
  exists (unionBy (newMemberships expiries)
            (match memberships with Some ms => ms | None => [] end)
            MembershipStatus.address).
  split; [|split].
  - unfold scanForMemberships. rewrite Hnet.
    destruct (relevant accountToScan) as [|a l] eqn:Hra; [done|].
    cbn [length Nat.eqb]. rewrite Hlookup. cbn [scan_catch then_]. by rewrite Hconv.
  - apply NoDup_uniqBy_from.
  - intros a. unfold unionBy.
    rewrite (find_uniqBy_from MembershipStatus.address) by apply not_elem_of_nil.
    apply find_append.
Qed.

End Scan.

Lemma newMemberships_positive_witness :
  let m := {| MembershipStatus.address := "0xalice";
              MembershipStatus.memberships :=
                [ {| Membership.type := Some "onemonth";
                     Membership.expiry := 1700000000 |} ] |} in
  MembershipStatus.memberships m ≠ [] ∧
  ∃ byContract,
    (MembershipStatus.address m, byContract)
      ∈ [("0xalice", [("0xmonthly", 1700000000); ("0xyearly", 0)]); ("0xbob", [])] ∧
    ∀ e, e ∈ MembershipStatus.memberships m →
         0 < Membership.expiry e ∧
         ∃ contract,
           (contract, Membership.expiry e) ∈ byContract ∧
           Membership.type e = @MEMBERSHIP_CONTRACTS Sample.imports contract.
Proof.
  apply (@newMemberships_positive Sample.imports
           [("0xalice", [("0xmonthly", 1700000000); ("0xyearly", 0)]); ("0xbob", [])]).
  cbn. apply elem_of_cons. by left.
Defined.

Lemma scan_success_merges_witness :
  ∃ merged,
    @scanForMemberships Sample.imports Sample.mined [Sample.celo] (Some [])
      [Sample.alice] None Sample.emptyStore
    = {| Store.accountRestore := Store.accountRestore Sample.emptyStore;
         Store.memberships := Some merged;
         Store.calls := Store.calls Sample.emptyStore |} ∧
    NoDup (map MembershipStatus.address merged) ∧
    ∀ a, List.find (λ m, bool_decide (MembershipStatus.address m = a)) merged
         = match List.find (λ m, bool_decide (MembershipStatus.address m = a))
                   (@newMemberships Sample.imports
                      [("0xalice", [("0xmonthly", 1700000000)])]) with
           | Some m => Some m
           | None => List.find (λ m, bool_decide (MembershipStatus.address m = a)) []
           end.
Proof.
  apply (@scan_success_merges Sample.imports Sample.mined [Sample.celo] (Some [])
           [Sample.alice] None Sample.emptyStore Sample.celo
           [("0xalice", [("0xmonthly", 1700000000)])]
           [("0xalice", [("0xmonthly", 1700000000)])]).
  - reflexivity.
  - discriminate.
  - reflexivity.
  - reflexivity.
Defined.

End ScanProperties.

(** ** More on the account cache and [addAccount] *)

Module CacheProperties.
Import Lib StoreProvider.

Local Abbreviation unexpired_in ms t :=
  (∃ m e, m ∈ ms ∧ e ∈ MembershipStatus.memberships m ∧ t < Membership.expiry e).

Lemma isCeloWalletMember_spec (memberships : option (list MembershipStatus.t))
    (Date_now : Z) :
  isCeloWalletMember memberships Date_now = true ↔
  ∃ ms, memberships = Some ms ∧ unexpired_in ms (Math_round_div1000 Date_now).
Proof.
  unfold isCeloWalletMember, membershipState.
  destruct memberships as [ms|]; [|split; [done|by intros (? & ? & _)]].
  pose proof (MembershipProperties.some_unexpired_spec ms (Math_round_div1000 Date_now))
    as Hsome.
  destruct ms as [|m0 ms]; cbn [length Nat.eqb].
  - split; [done|]. intros (ms & [= <-] & m & e & Hm%elem_of_nil & _). done.
  - destruct (existsb _ _).
    + split; [|done]. intros _. exists (m0 :: ms). split; [done|]. by apply Hsome.
    + split; [done|]. intros (ms' & [= <-] & Hu). apply Hsome in Hu. done.
Qed.

Lemma filter_not_decide {A} (P : A → Prop) `{∀ x, Decision (P x)} (l : list A) :
  List.filter (λ x, negb (bool_decide (P x))) l = filter (λ x, ¬ P x) l.
Proof.
  induction l as [|x l IH]; [done|]. cbn [List.filter]. rewrite filter_cons, IH.
  destruct (decide (P x)) as [HP|HP].
  - rewrite bool_decide_eq_true_2 by done. cbn [negb]. by rewrite decide_False by auto.
  - rewrite bool_decide_eq_false_2 by done. cbn [negb]. by rewrite decide_True.
Qed.

(** X5. Deleting an account leaves exactly the membership statuses whose
    address is not the account's, every one of them and in the same
    order, and leaves undefined memberships undefined; it can end a
    membership but never start one. *)
Theorem delete_drops_memberships (dashboardAccounts : list TUuid)
    (account : IAccount.t) (st : Store.t) (Date_now : Z) :
  let st' := deleteAccountFromCache dashboardAccounts account st in
  Store.memberships st'
  = filter (λ s, MembershipStatus.address s ≠ IAccount.address account)
      <$> Store.memberships st ∧
  (isCeloWalletMember (Store.memberships st') Date_now = true →
   isCeloWalletMember (Store.memberships st) Date_now = true).
Proof.
  intros st'.
  assert (Hst' : Store.memberships st'
            = filter (λ s, MembershipStatus.address s ≠ IAccount.address account)
                <$> Store.memberships st).
  { subst st'. unfold deleteAccountFromCache. cbn.
    destruct (Store.memberships st) as [ms|]; [|done]. cbn.
    by rewrite (filter_not_decide
                  (λ s, MembershipStatus.address s = IAccount.address account)). }
  split; [exact Hst'|]. rewrite Hst', !isCeloWalletMember_spec.
  intros (ms' & Hms' & m & e & Hm & He & Hlt).
  destruct (Store.memberships st) as [ms|]; [|done]. injection Hms' as <-.
  exists ms. split; [done|]. exists m, e.
  apply list_elem_of_filter in Hm as [_ Hm]. done.
Qed.

(** X6. Deleting an account makes two calls: [deleteAccount] for it, then
    [updateSettingsAccounts] with the dashboard selection without the
    entries equal to its uuid, all other entries kept as they are and in
    the same order. *)
Theorem delete_updates_dashboard (dashboardAccounts : list TUuid)
    (account : IAccount.t) (st : Store.t) :
  Store.calls (deleteAccountFromCache dashboardAccounts account st)
  = (Store.calls st
     ++ [deleteAccount account;
         updateSettingsAccounts
           (filter (λ u, u ≠ IAccount.uuid account) dashboardAccounts)])%list.
Proof.
  unfold deleteAccountFromCache. cbn. rewrite <- app_assoc. cbn.
  by rewrite (filter_not_decide (λ u, u = IAccount.uuid account)).
Qed.

Lemma cache_step_invariant (P : IAccount.t → Prop) (calls0 : list Call)
    (st : Store.t) (op : CacheOp) :
  (∀ d a, op = DeleteFromCache d a → P a) →
  filed_by_uuid (Store.accountRestore st) →
  (∀ k a, Store.accountRestore st !! k = Some (Some a) → P a) →
  (∀ item u, createAccountWithID item u ∈ Store.calls st →
     createAccountWithID item u ∈ calls0
     ∨ ∃ a, P a ∧ item = IAccount.rest a ∧ u = IAccount.uuid a) →
  filed_by_uuid (Store.accountRestore (cache_step st op)) ∧
  (∀ k a, Store.accountRestore (cache_step st op) !! k = Some (Some a) → P a) ∧
  (∀ item u, createAccountWithID item u ∈ Store.calls (cache_step st op) →
     createAccountWithID item u ∈ calls0
     ∨ ∃ a, P a ∧ item = IAccount.rest a ∧ u = IAccount.uuid a).
Proof.
  intros Hop Hfiled HP Hcalls. destruct op as [d a|accountId]; cbn [cache_step].
  - split; [by apply AccountProperties.filed_by_uuid_delete|]. split.
    + intros k a'. unfold deleteAccountFromCache. cbn.
      destruct (decide (IAccount.uuid a = k)) as [<-|Hne].
      * rewrite lookup_insert_eq. intros [= <-]. by eapply Hop.
      * rewrite lookup_insert_ne by done. apply HP.
    + intros item u. unfold deleteAccountFromCache. cbn.
      rewrite !elem_of_app, !list_elem_of_singleton.
      intros [[Hin|Heq]|Heq]; [by apply Hcalls|done..].
  - unfold restoreDeletedAccount.
    destruct (Store.accountRestore st !! accountId) as [[a|]|] eqn:Hslot; cbn;
      [|by repeat split..].
    pose proof (HP _ _ Hslot) as Ha. split; [|split].
    + intros k a'. destruct (decide (IAccount.uuid a = k)) as [<-|Hne].
      * by rewrite lookup_insert_eq.
      * rewrite lookup_insert_ne by done. apply Hfiled.
    + intros k a'. destruct (decide (IAccount.uuid a = k)) as [<-|Hne].
      * by rewrite lookup_insert_eq.
      * rewrite lookup_insert_ne by done. apply HP.
    + intros item u. rewrite elem_of_app, list_elem_of_singleton.
      intros [Hin|[= -> ->]]; [by apply Hcalls|]. right. by exists a.
Qed.

Lemma cache_run_invariant (P : IAccount.t → Prop) (calls0 : list Call)
    (ops : list CacheOp) (st : Store.t) :
  (∀ d a, DeleteFromCache d a ∈ ops → P a) →
  filed_by_uuid (Store.accountRestore st) →
  (∀ k a, Store.accountRestore st !! k = Some (Some a) → P a) →
  (∀ item u, createAccountWithID item u ∈ Store.calls st →
     createAccountWithID item u ∈ calls0
     ∨ ∃ a, P a ∧ item = IAccount.rest a ∧ u = IAccount.uuid a) →
  filed_by_uuid (Store.accountRestore (cache_run ops st)) ∧
  (∀ item u, createAccountWithID item u ∈ Store.calls (cache_run ops st) →
     createAccountWithID item u ∈ calls0
     ∨ ∃ a, P a ∧ item = IAccount.rest a ∧ u = IAccount.uuid a).
Proof.
  revert st. induction ops as [|op ops IH]; intros st Hops Hfiled HP Hcalls.
  - by split.
  - unfold cache_run. cbn [fold_left].
    destruct (cache_step_invariant P calls0 st op) as (Hf & Hp & Hc); try done.
    { intros d a ->. apply (Hops d). by left. }
    apply IH; try done. intros d a Hin. apply (Hops d). by right.
Qed.

(** X7. Through any history of deletions and restorations that starts
    with an empty cache, every account in the cache is filed under its
    own uuid, and every [createAccountWithID] call that the history adds
    re-creates an account deleted in that history, with its own data,
    under its own uuid. *)
Theorem cache_run_restores_only_deleted (ops : list CacheOp) (st : Store.t) :
  Store.accountRestore st = ∅ →
  filed_by_uuid (Store.accountRestore (cache_run ops st)) ∧
  ∀ item u,
    createAccountWithID item u ∈ Store.calls (cache_run ops st) →
    createAccountWithID item u ∈ Store.calls st
    ∨ ∃ d a, DeleteFromCache d a ∈ ops ∧ item = IAccount.rest a ∧ u = IAccount.uuid a.
Proof.
  intros Hempty.
  destruct (cache_run_invariant (λ a, ∃ d, DeleteFromCache d a ∈ ops)
              (Store.calls st) ops st) as [Hf Hc].
  - intros d a Hin. by exists d.
  - rewrite Hempty. apply AccountProperties.filed_by_uuid_empty.
  - intros k a. by rewrite Hempty, lookup_empty.
  - intros item u Hin. by left.
  - split; [done|]. intros item u Hin.
    destruct (Hc item u Hin) as [?|(a & [d Hd] & -> & ->)]; [by left|].
    right. by exists d, a.
Qed.

(** X8. An account can be restored once per deletion: when the cache is
    filed by uuid and a restoration succeeds, restoring the same id again
    from the next render throws and changes nothing. *)
Theorem restore_twice_throws (accountId : TUuid) (st st' : Store.t) :
  filed_by_uuid (Store.accountRestore st) →
  restoreDeletedAccount (Store.accountRestore st) accountId st = Normal tt st' →
  restoreDeletedAccount (Store.accountRestore st') accountId st'
  = Throw (Error "Unable to restore account! No account with id specified.") st'.
Proof.
  intros Hfiled. unfold restoreDeletedAccount at 1.
  destruct (Store.accountRestore st !! accountId) as [[a|]|] eqn:Hslot; cbn; [|done..].
  intros [= <-]. apply AccountProperties.restore_undefined. cbn.
  rewrite (Hfiled _ _ Hslot). by rewrite lookup_insert_eq.
Qed.

End CacheProperties.

Module AccountMoreProperties.
Import Lib StoreProvider.

Lemma cache_run_restores_only_deleted_witness :
  let ops := [DeleteFromCache ["Celo:0xalice"] Sample.cachedAccount;
              RestoreDeleted "Celo:0xalice"; RestoreDeleted "Celo:0xalice"] in
  filed_by_uuid (Store.accountRestore (cache_run ops Sample.emptyStore)) ∧
  ∀ item u,
    createAccountWithID item u ∈ Store.calls (cache_run ops Sample.emptyStore) →
    createAccountWithID item u ∈ Store.calls Sample.emptyStore
    ∨ ∃ d a, DeleteFromCache d a ∈ ops ∧ item = IAccount.rest a ∧ u = IAccount.uuid a.
Proof.
  apply (CacheProperties.cache_run_restores_only_deleted
           [DeleteFromCache ["Celo:0xalice"] Sample.cachedAccount;
            RestoreDeleted "Celo:0xalice"; RestoreDeleted "Celo:0xalice"]
           Sample.emptyStore).
  reflexivity.
Defined.

Lemma restore_twice_throws_witness :
  let st := deleteAccountFromCache [] Sample.cachedAccount Sample.emptyStore in
  ∃ st',
    restoreDeletedAccount (Store.accountRestore st) "Celo:0xalice" st = Normal tt st' ∧
    restoreDeletedAccount (Store.accountRestore st') "Celo:0xalice" st'
    = Throw (Error "Unable to restore account! No account with id specified.") st'.
Proof.
  intros st. eexists. split.
  - apply AccountProperties.restore_defined.
    apply (AccountProperties.restore_slot_after_delete [] Sample.cachedAccount).
  - apply (CacheProperties.restore_twice_throws "Celo:0xalice" st).
    + apply AccountProperties.filed_by_uuid_delete,
        AccountProperties.filed_by_uuid_empty.
    + apply AccountProperties.restore_defined.
      apply (AccountProperties.restore_slot_after_delete [] Sample.cachedAccount).
Defined.

Section AddAccount.
Context `{Imports}.
Variable getAccountByAddressAndNetworkName :
  TAddress → NetworkId → option StoreAccount.t.
Variable getContactByAddressAndNetworkId :
  TAddress → NetworkId → option ExtendedAddressBook.t.
Variable assets : list Asset.t.
Variable networks : list Network.t.
Variable contacts : list ExtendedAddressBook.t.
Variable Date_now : Z.

Local Abbreviation add :=
  (addAccount getAccountByAddressAndNetworkName getContactByAddressAndNetworkId
     assets networks contacts Date_now).

(** X9. A successful [addAccount] makes exactly two calls, for the
    contact and then for the account.  The wallet of the account is the
    type given, except that [WEB3] is replaced by the wallet named by the
    web3 configuration.  An address that already has a contact on the
    network gets no second one: the existing contact is updated under its
    own uuid and only its label changes; otherwise a contact with the
    account's address and network and empty notes is created. *)
Theorem addAccount_contact (networkId : NetworkId) (address : TAddress)
    (accountType : option WalletId) (dPath : string) (st : Store.t)
    (network : Network.t) :
  getNetworkById networkId networks = Some network →
  address ≠ "" →
  getAccountByAddressAndNetworkName address networkId = None →
  let walletType :=
    if bool_decide (accountType = Some WalletIds.WEB3)
    then WalletId_lookup getWeb3Config_id else accountType in
  let label := findNextUnusedDefaultLabel walletType contacts in
  ∃ account contactCall,
    fst (add networkId address accountType dPath st) = Some account ∧
    IRawAccount.wallet account = walletType ∧
    Store.accountRestore (snd (add networkId address accountType dPath st))
      = Store.accountRestore st ∧
    Store.memberships (snd (add networkId address accountType dPath st))
      = Store.memberships st ∧
    Store.calls (snd (add networkId address accountType dPath st))
    = (Store.calls st
       ++ [contactCall;
           createAccountWithID account (generateAccountUUID networkId address)])%list ∧
    match getContactByAddressAndNetworkId address networkId with
    | Some existing =>
        ∃ updated,
          contactCall = updateContact (ExtendedAddressBook.uuid existing) updated ∧
          ExtendedAddressBook.label updated = label ∧
          ExtendedAddressBook.uuid updated = ExtendedAddressBook.uuid existing ∧
          ExtendedAddressBook.address updated = ExtendedAddressBook.address existing ∧
          ExtendedAddressBook.notes updated = ExtendedAddressBook.notes existing ∧
          ExtendedAddressBook.network updated = ExtendedAddressBook.network existing
    | None =>
        contactCall
        = createContact {| AddressBook.label := label; AddressBook.address := address;
                           AddressBook.notes := ""; AddressBook.network := networkId |}
    end.
Proof.
  intros Hnet Haddr Hacc walletType label. unfold addAccount, truthy_string.
  rewrite Hnet, Hacc. rewrite bool_decide_eq_false_2 by done.
  rewrite bool_decide_eq_false_2 by (by intros [? ?]).
  cbn [negb orb]. cbn.
  destruct (getContactByAddressAndNetworkId address networkId) as [existing|];
    eexists _, _; cbn; rewrite <- app_assoc; cbn;
    repeat (split; [reflexivity|]).
  - eexists. by repeat split.
  - reflexivity.
Qed.

End AddAccount.

Lemma addAccount_contact_witness :
  ∃ account contactCall,
    fst (@addAccount Sample.imports Sample.noAccount Sample.noContact [] [Sample.celo] []
           1600000000000 "Celo" "0xcarol" (Some "WEB3") "m/44'/52752'/0'/0/0"
           Sample.emptyStore) = Some account ∧
    IRawAccount.wallet account = Some "METAMASK" ∧
    Store.calls
      (snd (@addAccount Sample.imports Sample.noAccount Sample.noContact [] [Sample.celo]
              [] 1600000000000 "Celo" "0xcarol" (Some "WEB3") "m/44'/52752'/0'/0/0"
              Sample.emptyStore))
    = [contactCall; createAccountWithID account "Celo:0xcarol"] ∧
    contactCall
    = createContact {| AddressBook.label := "Account 1"; AddressBook.address := "0xcarol";
                       AddressBook.notes := ""; AddressBook.network := "Celo" |}.
Proof.
  destruct (@addAccount_contact Sample.imports Sample.noAccount Sample.noContact []
              [Sample.celo] [] 1600000000000 "Celo" "0xcarol" (Some "WEB3")
              "m/44'/52752'/0'/0/0" Sample.emptyStore Sample.celo)
    as (account & contactCall & Hfst & Hwallet & _ & _ & Hcalls & Hcontact).
  - reflexivity.
  - discriminate.
  - reflexivity.
  - exists account, contactCall. repeat split; assumption.
Defined.

End AccountMoreProperties.

(** ** More on the polling effects *)

Module PollMoreProperties.
Import Lib StoreProvider.

Section Poll.
Context `{Imports} `{Chain}.
Variable getAccountByAddressAndNetworkName :
  TAddress → NetworkId → option StoreAccount.t.
Variable assets : list Asset.t.
Variable networks : list Network.t.
Variable currentAccounts : list StoreAccount.t.

Local Abbreviation onSettled :=
  (onStatusAndTimestamp getAccountByAddressAndNetworkName).
Local Abbreviation poll :=
  (pollPendingTransaction getAccountByAddressAndNetworkName assets networks).
Local Abbreviation round :=
  (txStatusLookupRound getAccountByAddressAndNetworkName assets networks).
Local Abbreviation senderOf := (senderAccountOf getAccountByAddressAndNetworkName).

(** The scans that follow the addition of a transaction of a given type. *)
Local Abbreviation scans_for txType sender :=
  (match txType with
   | Some DEFIZAP => [scanAccountTokens sender]
   | Some PURCHASE_MEMBERSHIP => [scanForMemberships_call [sender]]
   | _ => []
   end).

Lemma onSettled_shape isMounted p network receipt txStatus txTimestamp :
  onSettled isMounted p network receipt txStatus txTimestamp = []
  ∨ ∃ status time,
      txStatus = Some status ∧ txTimestamp = Some time ∧
      onSettled isMounted p network receipt txStatus txTimestamp
      = addNewTransactionToAccount (senderOf p network receipt)
          (ITxReceipt.with_status receipt
             (match ITxReceipt.txType p with Some ty => ty | None => STANDARD end)
             time status)
        :: scans_for (ITxReceipt.txType p) (senderOf p network receipt).
Proof.
  unfold onStatusAndTimestamp.
  destruct isMounted; [|by left].
  destruct txStatus as [status|]; [|by left].
  destruct txTimestamp as [time|]; [|by left].
  cbn [negb orb truthy_number]. rewrite bool_decide_eq_true_2 by eauto.
  cbn [negb orb]. destruct (negb (negb (time =? 0))); [by left|].
  right. exists status, time. by repeat split.
Qed.

Lemma poll_cases isMounted p :
  poll isMounted p = []
  ∨ ∃ network receipt txStatus txTimestamp,
      ITxReceipt.network p = Some network ∧
      poll isMounted p = onSettled isMounted p network receipt txStatus txTimestamp.
Proof.
  unfold pollPendingTransaction.
  destruct (ITxReceipt.network p) as [network|]; [|by left].
  destruct (getTransactionByHash _ _) as [tr|]; [|by left].
  destruct (onTransactionByHash assets networks tr) as [receipt|]; [|by left].
  destruct (Promise_all _ _) as [[txStatus txTimestamp]|]; [|by left].
  right. by exists network, receipt, txStatus, txTimestamp.
Qed.

(** X11. What one pending transaction leads to in a round is either
    nothing, or the addition of the transaction to the sender account
    followed by the scan that its type asks for: the account's tokens for
    [DEFIZAP], the memberships of that same account for
    [PURCHASE_MEMBERSHIP], none otherwise.  No scan is started without
    the addition, and the transaction added has the pending
    transaction's type, or [STANDARD] when it has none. *)
Theorem poll_adds_then_scans (isMounted : bool) (p : ITxReceipt.t) :
  poll isMounted p = []
  ∨ ∃ senderAccount tx,
      poll isMounted p
      = addNewTransactionToAccount senderAccount tx
        :: scans_for (ITxReceipt.txType p) senderAccount ∧
      ITxReceipt.txType tx
      = Some (match ITxReceipt.txType p with Some ty => ty | None => STANDARD end) ∧
      (ITxReceipt.senderAccount p ≠ None →
       senderAccount = ITxReceipt.senderAccount p).
Proof.
  destruct (poll_cases isMounted p)
    as [Hnil|(network & receipt & txStatus & txTimestamp & _ & ->)]; [by left|].
  destruct (onSettled_shape isMounted p network receipt txStatus txTimestamp)
    as [Hnil|(status & time & _ & _ & ->)]; [by left|].
  right. eexists _, _. split; [reflexivity|]. split; [reflexivity|].
  unfold senderAccountOf. by destruct (ITxReceipt.senderAccount p).
Qed.

(** X12. A block timestamp of 0 counts as a failed lookup: the pending
    transaction is not added in that round. *)
Theorem poll_zero_timestamp (isMounted : bool) (p : ITxReceipt.t)
    (network : Network.t) (transactionReceipt : TransactionResponse.t)
    (receipt : ITxReceipt.t) :
  ITxReceipt.network p = Some network →
  getTransactionByHash network (ITxReceipt.hash p)
    = Fulfilled (Some transactionReceipt) →
  fromTxReceiptObj transactionReceipt assets networks = Some receipt →
  getTimestampFromBlockNum (ITxReceipt.blockNumber receipt) network
    = Fulfilled (Some 0) →
  poll isMounted p = [].
Proof.
  intros Hnet Hget Hfrom Hts. unfold pollPendingTransaction.
  rewrite Hnet, Hget. cbn [onTransactionByHash]. rewrite Hfrom, Hts.
  destruct (getTxStatus _ _) as [[status|]|]; cbn [Promise_all]; try done;
    unfold onStatusAndTimestamp; by destruct isMounted.
Qed.

(** X13. A pending transaction makes no call in a round when it carries
    no network, when the lookup of the transaction is rejected, when the
    transaction found cannot be turned into a receipt, or when the status
    or the timestamp lookup is rejected. *)
Theorem poll_nothing_on_failure (isMounted : bool) (p : ITxReceipt.t) :
  (ITxReceipt.network p = None → poll isMounted p = []) ∧
  (∀ network e,
     ITxReceipt.network p = Some network →
     getTransactionByHash network (ITxReceipt.hash p) = Rejected e →
     poll isMounted p = []) ∧
  (∀ network transactionReceipt,
     ITxReceipt.network p = Some network →
     getTransactionByHash network (ITxReceipt.hash p)
       = Fulfilled (Some transactionReceipt) →
     fromTxReceiptObj transactionReceipt assets networks = None →
     poll isMounted p = []) ∧
  (∀ network transactionReceipt receipt e,
     ITxReceipt.network p = Some network →
     getTransactionByHash network (ITxReceipt.hash p)
       = Fulfilled (Some transactionReceipt) →
     fromTxReceiptObj transactionReceipt assets networks = Some receipt →
     getTxStatus network (ITxReceipt.hash receipt) = Rejected e
     ∨ getTimestampFromBlockNum (ITxReceipt.blockNumber receipt) network = Rejected e →
     poll isMounted p = []).
Proof.
  unfold pollPendingTransaction. split; [by intros ->|]. split; [by intros ?? -> ->|].
  split.
  - intros network tr -> ->. cbn [onTransactionByHash]. by intros ->.
  - intros network tr receipt e -> -> Hfrom Hrej. cbn [onTransactionByHash].
    rewrite Hfrom. destruct Hrej as [-> | ->]; [done|].
    by destruct (getTxStatus _ _).
Qed.

Lemma poll_length isMounted p : (length (poll isMounted p) ≤ 2)%nat.
Proof.
  destruct (poll_cases isMounted p)
    as [->|(network & receipt & txStatus & txTimestamp & _ & ->)]; [cbn; lia|].
  destruct (onSettled_shape isMounted p network receipt txStatus txTimestamp)
    as [->|(status & time & _ & _ & ->)]; [cbn; lia|].
  destruct (ITxReceipt.txType p) as [[]|]; cbn; lia.
Qed.

Lemma poll_unmounted p : poll false p = [].
Proof.
  destruct (poll_cases false p)
    as [->|(network & receipt & txStatus & txTimestamp & _ & ->)]; done.
Qed.

(** X14. A round over the pending transactions makes at most two calls
    per pending transaction, none when there is no pending transaction,
    and none at all when the effect has been cleaned up. *)
Theorem round_bounded (isMounted : bool) (pendingTransactions : list ITxReceipt.t) :
  (length (round isMounted pendingTransactions)
   ≤ 2 * length pendingTransactions)%nat ∧
  round isMounted [] = [] ∧
  round false pendingTransactions = [].
Proof.
  unfold txStatusLookupRound. split; [|split; [done|]].
  - induction pendingTransactions as [|p l IH]; cbn [flat_map length]; [lia|].
    rewrite length_app. pose proof (poll_length isMounted p). lia.
  - induction pendingTransactions as [|p l IH]; cbn [flat_map]; [done|].
    by rewrite poll_unmounted, IH.
Qed.

Lemma balance_run_equal (evs : list BalanceEvent) (e : Effect.t) :
  Forall (λ ev, match ev with
                | BalancesFetched accountsWithBalances =>
                    isArrayEqual currentAccounts (omap id accountsWithBalances) = true
                | BalanceCleanup => True
                end) evs →
  Effect.calls (balance_run currentAccounts evs e) = Effect.calls e.
Proof.
  intros Hevs. revert e. induction Hevs as [|ev evs Hev _ IH]; intros e; [done|].
  unfold balance_run in *. cbn [fold_left]. rewrite IH.
  destruct ev as [accountsWithBalances|]; cbn; [|done].
  unfold onBalancesFetched. rewrite Hev, andb_false_r. cbn. apply app_nil_r.
Qed.

(** X10. As long as every fetch returns the balances that the current
    accounts already have (once the accounts that could not be fetched
    are left out), the balance poll never calls
    [updateAccountsBalances], mounted or not. *)
Theorem balances_unchanged_no_update (evs : list BalanceEvent) :
  Forall (λ ev, match ev with
                | BalancesFetched accountsWithBalances =>
                    isArrayEqual currentAccounts (omap id accountsWithBalances) = true
                | BalanceCleanup => True
                end) evs →
  Effect.calls (balance_run currentAccounts evs Effect.start) = [].
Proof. intros Hevs. by rewrite balance_run_equal. Qed.

End Poll.

Lemma poll_zero_timestamp_witness :
  @pollPendingTransaction Sample.imports Sample.epoch Sample.noAccount []
    [Sample.celo] true Sample.pendingTx = [].
Proof.
  apply (@poll_zero_timestamp Sample.imports Sample.epoch Sample.noAccount []
           [Sample.celo] true Sample.pendingTx Sample.celo
           {| TransactionResponse.hash := "0xhash";
              TransactionResponse.from := "0xsender";
              TransactionResponse.blockNumber := Some 7;
              TransactionResponse.chainId := 42220 |}
           {| ITxReceipt.hash := "0xhash"; ITxReceipt.from := "0xsender";
              ITxReceipt.blockNumber := Some 7; ITxReceipt.network := Some Sample.celo;
              ITxReceipt.senderAccount := None; ITxReceipt.txType := None;
              ITxReceipt.timestamp := 0; ITxReceipt.stage := PENDING |});
    reflexivity.
Defined.

Lemma balances_unchanged_no_update_witness :
  Effect.calls
    (@balance_run Sample.imports [Sample.alice]
       [BalancesFetched [Some Sample.alice; None]; BalanceCleanup;
        BalancesFetched [None; Some Sample.alice]] Effect.start) = [].
Proof.
  apply (@balances_unchanged_no_update Sample.imports [Sample.alice]
           [BalancesFetched [Some Sample.alice; None]; BalanceCleanup;
            BalancesFetched [None; Some Sample.alice]]).
  repeat constructor.
Defined.

End PollMoreProperties.

(** ** Derived values of the state object *)

Module StateProperties.
Import Lib StoreProvider UniqProperties.

(** *** Sorting with a comparator that decides a total preorder *)

Section SortBy.
Context {A : Type} (compareFn : A → A → Q) (R : A → A → Prop).
Hypothesis before : ∀ a b, Qle_bool (compareFn a b) 0 = true → R a b.
Hypothesis after : ∀ a b, Qle_bool (compareFn a b) 0 = false → R b a.
Hypothesis R_trans : ∀ a b c, R a b → R b c → R a c.

Lemma sort_insert_ordered (a : A) (l : list A) :
  StronglySorted R l → StronglySorted R (sort_insert compareFn a l).
Proof.
  induction 1 as [|b l Hl IH Hb]; cbn [sort_insert].
  - repeat constructor.
  - destruct (Qle_bool _ _) eqn:Hle.
    + constructor; [by constructor|]. constructor; [by apply before|].
      eapply Forall_impl; [exact Hb|]. intros c Hc. eapply R_trans; [|exact Hc].
      by apply before.
    + constructor; [exact IH|].
      apply (Permutation_Forall
               (Permutation_sym (TotalsProperties.sort_insert_perm compareFn a l))).
      constructor; [by apply after|done].
Qed.

Lemma Array_sort_ordered (l : list A) : StronglySorted R (Array_sort compareFn l).
Proof.
  induction l as [|a l IH]; cbn [Array_sort]; [constructor|].
  by apply sort_insert_ordered.
Qed.

End SortBy.

Lemma units_compare_antisym (u v : list N) :
  units_compare v u = CompOpp (units_compare u v).
Proof.
  revert v. induction u as [|x u IH]; intros [|y v]; cbn [units_compare]; try done.
  rewrite (N.compare_antisym x y). destruct (x ?= y)%N; cbn [CompOpp]; [apply IH|done..].
Qed.

Lemma units_compare_le_trans (u v w : list N) :
  units_compare u v ≠ Gt → units_compare v w ≠ Gt → units_compare u w ≠ Gt.
Proof.
  revert v w. induction u as [|x u IH]; intros [|y v] [|z w]; cbn [units_compare];
    try done.
  destruct (N.compare_spec x y) as [->|Hxy|Hxy]; [| |done].
  - destruct (N.compare_spec y z) as [->|Hyz|Hyz]; [apply IH|done..].
  - destruct (N.compare_spec y z) as [->|Hyz|Hyz]; [| |done]; intros _ _.
    + by rewrite (proj2 (N.compare_lt_iff x z) Hxy).
    + by rewrite (proj2 (N.compare_lt_iff x z) (N.lt_trans _ _ _ Hxy Hyz)).
Qed.

Lemma string_lt_false (a b : string) :
  string_lt b a = false ↔ units_compare (code_units a) (code_units b) ≠ Gt.
Proof.
  unfold string_lt. rewrite (units_compare_antisym (code_units a) (code_units b)).
  by destruct (units_compare (code_units a) (code_units b)).
Qed.

Lemma sortBy_sorted {A} (fn : A → string) (l : list A) :
  StronglySorted (λ a b, string_lt (fn b) (fn a) = false) (sortBy fn l).
Proof.
  unfold sortBy. apply Array_sort_ordered.
  - intros a b. cbn zeta. rewrite string_lt_false. unfold string_lt.
    rewrite (units_compare_antisym (code_units (fn a)) (code_units (fn b))).
    by destruct (units_compare (code_units (fn a)) (code_units (fn b))).
  - intros a b. cbn zeta. unfold string_lt.
    rewrite (units_compare_antisym (code_units (fn a)) (code_units (fn b))).
    by destruct (units_compare (code_units (fn a)) (code_units (fn b))).
  - intros a b c. rewrite !string_lt_false. apply units_compare_le_trans.
Qed.

Lemma sortBy_perm {A} (fn : A → string) (l : list A) :
  Permutation (sortBy fn l) l.
Proof. apply TotalsProperties.Array_sort_perm. Qed.

Lemma find_by_key {A} (f : A → string) (l : list A) (x : A) :
  NoDup (map f l) → x ∈ l →
  List.find (λ b, bool_decide (f b = f x)) l = Some x.
Proof.
  induction l as [|b l IH]; [by intros _ ?%elem_of_nil|].
  cbn [map List.find]. intros [Hb Hnd]%NoDup_cons [->|Hin]%elem_of_cons.
  - by rewrite bool_decide_eq_true_2.
  - rewrite bool_decide_eq_false_2; [by apply IH|].
    intros Heq. apply Hb. rewrite Heq. apply list_elem_of_In, in_map.
    by apply list_elem_of_In.
Qed.

Section State.
Variable assets : list Asset.t.
Variable accounts : list StoreAccount.t.

Local Abbreviation has_id a :=
  (match Asset.coinGeckoId a with
   | Some coinGeckoId => truthy_string coinGeckoId
   | None => false
   end).

(** X15. The CoinGecko manifest maps a uuid to the CoinGecko id of the
    last asset in the list that has this uuid and a non-empty id, and to
    nothing when there is no such asset; it never holds an empty id. *)
Theorem coinGeckoAssetManifest_lookup (u : TUuid) :
  coinGeckoAssetManifest assets !! u
  = List.find (λ a, bool_decide (Asset.uuid a = u) && has_id a) (rev assets)
      ≫= Asset.coinGeckoId ∧
  coinGeckoAssetManifest assets !! u ≠ Some "".
Proof.
  assert (Hlookup : coinGeckoAssetManifest assets !! u
    = List.find (λ a, bool_decide (Asset.uuid a = u) && has_id a) (rev assets)
        ≫= Asset.coinGeckoId).
  { unfold coinGeckoAssetManifest.
    induction assets as [|a l IH] using rev_ind; [done|].
    rewrite fold_left_app, rev_app_distr. cbn [fold_left rev app List.find].
    destruct (Asset.coinGeckoId a) as [id|] eqn:Hid;
      [|by rewrite andb_false_r].
    destruct (truthy_string id) eqn:Htruthy; [|by rewrite andb_false_r].
    rewrite andb_true_r. destruct (decide (Asset.uuid a = u)) as [<-|Hne].
    - rewrite lookup_insert_eq, bool_decide_eq_true_2 by done. by cbn.
    - rewrite lookup_insert_ne, bool_decide_eq_false_2 by done. exact IH. }
  split; [exact Hlookup|]. rewrite Hlookup.
  destruct (List.find _ _) as [a|] eqn:Hfind; [|done]. cbn.
  apply find_some in Hfind as [_ Ha]. apply andb_true_iff in Ha as [_ Ha].
  destruct (Asset.coinGeckoId a) as [id|]; [|done]. intros [= ->]. done.
Qed.

(** X16. The user's assets are the assets of the accounts that are not
    view-only, one per uuid (the first met), in ascending order of
    ticker: no asset's ticker is less, as JavaScript compares strings,
    than the ticker of an asset before it. *)
Theorem userAssets_sorted_unique :
  let held :=
    flat_map StoreAccount.assets
      (List.filter (λ a,
           negb (bool_decide (StoreAccount.wallet a = Some WalletIds.VIEW_ONLY)))
         accounts) in
  StronglySorted
    (λ a b, string_lt (StoreAsset.ticker b) (StoreAsset.ticker a) = false)
    (userAssets accounts) ∧
  NoDup (map StoreAsset.uuid (userAssets accounts)) ∧
  (∀ a, a ∈ userAssets accounts →
        ∃ account, account ∈ accounts
                   ∧ StoreAccount.wallet account ≠ Some WalletIds.VIEW_ONLY
                   ∧ a ∈ StoreAccount.assets account) ∧
  (∀ u, u ∈ map StoreAsset.uuid (userAssets accounts) ↔ u ∈ map StoreAsset.uuid held) ∧
  (∀ a, a ∈ userAssets accounts →
        List.find (λ b, bool_decide (StoreAsset.uuid b = StoreAsset.uuid a)) held
        = Some a).
Proof.
  intros held. unfold userAssets. fold held.
  pose proof (sortBy_perm StoreAsset.ticker (uniqBy StoreAsset.uuid held)) as Hperm.
  split; [apply sortBy_sorted|]. split; [|split; [|split]].
  - rewrite Hperm. apply NoDup_uniqBy_from.
  - intros a. rewrite Hperm. intros [Hin _]%in_uniqBy_from.
    subst held. apply list_elem_of_In, in_flat_map in Hin as (account & Hacc & Ha).
    apply filter_In in Hacc as [Hacc Hw].
    apply negb_true_iff, bool_decide_eq_false in Hw.
    exists account. by rewrite !list_elem_of_In.
  - intros u. rewrite Hperm. unfold uniqBy. rewrite keys_uniqBy_from.
    split; [by intros [? _]|]. intros Hu. split; [done|apply not_elem_of_nil].
  - intros a. rewrite Hperm. intros Hin.
    rewrite <- (find_uniqBy_from StoreAsset.uuid [] held) by apply not_elem_of_nil.
    apply find_by_key; [apply NoDup_uniqBy_from|exact Hin].
Qed.

(** X17. [assetUUIDs] and [assetTickers] list each uuid, respectively
    ticker, of the assets handed to them (by default, of all accounts)
    exactly once. *)
Theorem assetUUIDs_distinct (targetAssets : option (list StoreAsset.t)) :
  let target :=
    match targetAssets with Some l => l | None => state_assets accounts None end in
  NoDup (assetUUIDs accounts targetAssets) ∧
  (∀ u, u ∈ assetUUIDs accounts targetAssets ↔ u ∈ map StoreAsset.uuid target) ∧
  NoDup (assetTickers accounts targetAssets) ∧
  (∀ t, t ∈ assetTickers accounts targetAssets ↔ t ∈ map StoreAsset.ticker target).
Proof.
  intros target. unfold assetUUIDs, assetTickers, Set_values. fold target.
  assert (Hset : ∀ l : list string,
            NoDup (uniqBy_from (λ v, v) [] l) ∧ ∀ v, v ∈ uniqBy_from (λ v, v) [] l ↔ v ∈ l).
  { intros l. split.
    - rewrite <- (map_id (uniqBy_from _ _ _)). apply NoDup_uniqBy_from.
    - intros v. rewrite <- (map_id (uniqBy_from _ _ _)), keys_uniqBy_from, map_id.
      split; [by intros [? _]|]. intros Hv. split; [done|apply not_elem_of_nil]. }
  destruct (Hset (map StoreAsset.uuid target)) as [? ?].
  destruct (Hset (map StoreAsset.ticker target)) as [? ?]. done.
Qed.

End State.

(** Strings compare by code units: a character beyond U+FFFF, written
    with two surrogates, comes before U+FF5E although its code point is
    larger. *)
Example string_lt_code_units :
  string_lt "𐀀" "～" = true ∧ string_lt "～" "𐀀" = false
  ∧ string_lt "CELO" "cUSD" = true ∧ string_lt "CEL" "CELO" = true
  ∧ code_units "𐀀" = [55296%N; 56320%N] ∧ code_units "～" = [65374%N].
Proof. vm_compute. repeat split. Qed.

Example userAssets_sample :
  map StoreAsset.ticker (userAssets [Sample.alice; Sample.bob]) = ["CELO"; "cUSD"].
Proof. reflexivity. Qed.

End StateProperties.

(** ** More on the wallet breakdown *)

Module BreakdownMoreProperties.
Import Lib StoreProvider TotalsSpec WalletBreakdown.

Section Breakdown.
Context `{Imports}.
Variable accounts : list StoreAccount.t.
Variable currentAccounts : list StoreAccount.t.
Variable getAssetRate : StoreAsset.t → option Q.

Local Abbreviation holdings asset :=
  (λ account : StoreAccount.t,
     List.filter (λ accAsset,
         bool_decide (StoreAsset.uuid accAsset = StoreAsset.uuid asset))
       (StoreAccount.assets account)).
Local Abbreviation row asset :=
  (λ (account : StoreAccount.t) (accAsset : StoreAsset.t),
     {| BalanceAccount.address := StoreAccount.address account;
        BalanceAccount.ticker := StoreAsset.ticker accAsset;
        BalanceAccount.amount :=
          weiToFloat (StoreAsset.balance accAsset) (StoreAsset.decimal accAsset);
        BalanceAccount.fiatValue :=
          convertToFiatFromAsset accAsset (getAssetRate asset);
        BalanceAccount.label := StoreAccount.label account |}).

Lemma accounts_rows (asset : StoreAsset.t) :
  Balance.accounts (toBalance currentAccounts getAssetRate asset)
  = flat_map (λ account, map (row asset account) (holdings asset account))
      currentAccounts.
Proof.
  cbn [toBalance Balance.accounts].
  rewrite <- (app_nil_l (flat_map _ _)). generalize (@nil BalanceAccount.t).
  induction currentAccounts as [|account l IH]; intros acc; cbn [fold_left flat_map].
  - by rewrite app_nil_r.
  - rewrite IH.
    destruct (List.filter _ (StoreAccount.assets account)) as [|h hs];
      cbn [length Nat.eqb negb map app].
    + done.
    + by rewrite <- app_assoc.
Qed.

Lemma length_flat_map_rows (asset : StoreAsset.t) (l : list StoreAccount.t) :
  length (flat_map (λ account, map (row asset account) (holdings asset account)) l)
  = length (List.filter (λ accAsset,
                bool_decide (StoreAsset.uuid accAsset = StoreAsset.uuid asset))
              (flat_map StoreAccount.assets l)).
Proof.
  induction l as [|account l IH]; cbn [flat_map]; [done|].
  by rewrite List.filter_app, !length_app, length_map, IH.
Qed.

(** X19. The per-account breakdown of a row lists, account by account in
    the order of the current accounts, one entry for each holding of the
    row's asset: the holder's address and label, the holding's ticker and
    amount, and the holding's fiat value at the exchange rate of the
    row's asset.  It has as many entries as the current accounts have
    holdings of that asset. *)
Theorem balance_accounts_breakdown (asset : StoreAsset.t) :
  let rows := Balance.accounts (toBalance currentAccounts getAssetRate asset) in
  rows = flat_map (λ account, map (row asset account) (holdings asset account))
           currentAccounts ∧
  length rows
  = length (List.filter (λ accAsset,
                bool_decide (StoreAsset.uuid accAsset = StoreAsset.uuid asset))
              (flat_map StoreAccount.assets currentAccounts)) ∧
  ∀ entry, entry ∈ rows →
    ∃ account accAsset,
      account ∈ currentAccounts ∧ accAsset ∈ StoreAccount.assets account ∧
      StoreAsset.uuid accAsset = StoreAsset.uuid asset ∧
      entry = row asset account accAsset.
Proof.
  intros rows. subst rows. rewrite accounts_rows.
  split; [done|]. split; [apply length_flat_map_rows|].
  intros entry. rewrite list_elem_of_In, in_flat_map.
  intros (account & Hacc & Hentry). apply in_map_iff in Hentry as (accAsset & <- & Hh).
  apply filter_In in Hh as [Hh Huuid]. apply bool_decide_eq_true in Huuid.
  exists account, accAsset. by rewrite !list_elem_of_In.
Qed.

(** X20. Every row of the balance list has at least one entry in its
    per-account breakdown: a total exists only for an asset that some
    current account holds.  (This rests on the totals being keyed by the
    uuid of the assets held, as [getTotalByAsset] is modelled.) *)
Theorem balances_rows_nonempty (excluded : list TUuid) (b : Balance.t) :
  b ∈ balances accounts currentAccounts excluded getAssetRate →
  Balance.accounts b ≠ [].
Proof.
  unfold balances. rewrite (TotalsProperties.Array_sort_perm _ _).
  rewrite list_elem_of_In, in_map_iff. intros (total & <- & Hin).
  apply filter_In in Hin as [Hin _].
  rewrite TotalsProperties.totals_perAssetTotals in Hin.
  assert (Hheld : In (StoreAsset.uuid total)
                    (map StoreAsset.uuid (flat_map StoreAccount.assets currentAccounts))).
  { apply TotalsProperties.in_uuids_distinct.
    rewrite <- TotalsProperties.uuids_perAssetTotals. by apply in_map. }
  apply in_map_iff in Hheld as (holding & Huuid & Hholding).
  intros Hnil. apply (f_equal length) in Hnil.
  rewrite accounts_rows, length_flat_map_rows in Hnil.
  assert (Hfiltered : In holding
            (List.filter (λ accAsset,
                 bool_decide (StoreAsset.uuid accAsset = StoreAsset.uuid total))
               (flat_map StoreAccount.assets currentAccounts))).
  { apply filter_In. split; [done|]. by apply bool_decide_eq_true. }
  destruct (List.filter _ _); [done|discriminate].
Qed.

End Breakdown.

Lemma balances_rows_nonempty_witness :
  let b := @toBalance Sample.imports [Sample.alice; Sample.bob] (λ _, None)
             (Sample.cUSD 42) in
  Balance.accounts b ≠ [].
Proof.
  apply (@balances_rows_nonempty Sample.imports [] [Sample.alice; Sample.bob]
           (λ _, None) []).
  apply elem_of_cons. by left.
Defined.

End BreakdownMoreProperties.

(** ** More on the asset API and on the membership state *)

Module ApiMoreProperties.
Import CeloWalletApiService.

Local Abbreviation already :=
  (Some (Error "CeloWalletApiService has already been instantiated.")).

Lemma construct_times_instantiated (n : nat) :
  construct_times n true = (repeat already n, true).
Proof. induction n as [|n IH]; [done|]. cbn [construct_times constructor]. by rewrite IH. Qed.

(** X21. The service can be constructed once: of any number of
    constructor calls the first succeeds and every later one throws
    "already instantiated", and afterwards the module is marked
    instantiated.  Since the class creates its static instance when it is
    loaded, a constructor call made after that always throws. *)
Theorem constructor_once (n : nat) :
  construct_times (S n) false = (None :: repeat already n, true) ∧
  construct_times n true = (repeat already n, true) ∧
  constructor (snd (constructor false)) = (already, true).
Proof.
  split; [|split; [apply construct_times_instantiated|done]].
  cbn [construct_times constructor]. by rewrite construct_times_instantiated.
Qed.

(** X22. [getAssets] never rejects, whatever the request does, and
    writes at most one line to the console. *)
Theorem getAssets_never_rejects {ExtendedAsset : Type}
    (service : AxiosInstance (gmap string ExtendedAsset)) (console : Console) :
  ∃ assets console',
    getAssets service console = (Fulfilled assets, console') ∧
    (length console ≤ length console' ≤ length console + 1)%nat.
Proof.
  unfold getAssets, try_catch, await, mbind, async_bind.
  destruct (get service "assets.json") as [response|e]; eexists _, _;
    (split; [reflexivity|]).
  - lia.
  - cbn. rewrite length_app. cbn. lia.
Qed.

End ApiMoreProperties.

Module MembershipMoreProperties.
Import Lib StoreProvider.

Lemma Math_round_div1000_mono (t t' : Z) :
  t ≤ t' → Math_round_div1000 t ≤ Math_round_div1000 t'.
Proof. intros Hle. unfold Math_round_div1000. apply Z.div_le_mono; lia. Qed.

(** X23. Memberships only lapse with time: whoever is a member at some
    time was one at every earlier time, for the same memberships; and
    whether the state is [ERROR] or [NOTMEMBER] does not depend on the
    time. *)
Theorem membership_lapses_with_time
    (memberships : option (list MembershipStatus.t)) (t t' : Z) :
  t ≤ t' →
  (isCeloWalletMember memberships t' = true → isCeloWalletMember memberships t = true) ∧
  (membershipState memberships t = EXPIRED → membershipState memberships t' = EXPIRED) ∧
  (membershipState memberships t = ERROR ↔ membershipState memberships t' = ERROR) ∧
  (membershipState memberships t = NOTMEMBER
   ↔ membershipState memberships t' = NOTMEMBER).
Proof.
  intros Hle. pose proof (Math_round_div1000_mono t t' Hle) as Hmono.
  assert (Hmember : isCeloWalletMember memberships t' = true
                    → isCeloWalletMember memberships t = true).
  { rewrite !CacheProperties.isCeloWalletMember_spec.
    intros (ms & -> & m & e & Hm & He & Hlt). exists ms. split; [done|].
    exists m, e. repeat split; [done..|lia]. }
  split; [exact Hmember|]. revert Hmember.
  unfold isCeloWalletMember, membershipState.
  destruct memberships as [[|m0 ms]|]; cbn [length Nat.eqb]; [done| |done].
  destruct (existsb _ _), (existsb _ _); intros Hmember; repeat split; try done.
  by specialize (Hmember eq_refl).
Qed.

Lemma membership_lapses_with_time_witness :
  let memberships :=
    Some [ {| MembershipStatus.address := "0xalice";
              MembershipStatus.memberships :=
                [ {| Membership.type := Some "onemonth";
                     Membership.expiry := 1700000000 |} ] |} ] in
  (isCeloWalletMember memberships 1700000000499 = true
   → isCeloWalletMember memberships 1699999999499 = true) ∧
  (membershipState memberships 1699999999499 = EXPIRED
   → membershipState memberships 1700000000499 = EXPIRED) ∧
  (membershipState memberships 1699999999499 = ERROR
   ↔ membershipState memberships 1700000000499 = ERROR) ∧
  (membershipState memberships 1699999999499 = NOTMEMBER
   ↔ membershipState memberships 1700000000499 = NOTMEMBER).
Proof.
  apply (membership_lapses_with_time
           (Some [ {| MembershipStatus.address := "0xalice";
                      MembershipStatus.memberships :=
                        [ {| Membership.type := Some "onemonth";
                             Membership.expiry := 1700000000 |} ] |} ])
           1699999999499 1700000000499).
  lia.
Defined.

End MembershipMoreProperties.
